(** * ntfy-node: the message broker of [src/index.ts]

    A shallow embedding of the broker: the SQLite message log ([_save],
    [_query], [_remove_expired]), the live registry [_sockets] with the
    connection handler and [_close], the request handler [_fetch] with
    [_broadcast], the listeners and the start of the server, [getRandomId],
    and the JSON texts that go out.

    Conventions of the embedding.
    - A JavaScript string is a [string]: a sequence of code units below 256;
      [String.length] is the [.length] of the source.
    - A JavaScript number is a [number]: an integer or [NaN].  The source only
      builds numbers with [parseInt], [Math.floor], [+], [-] and [*]; they are
      exact below 2^53, and the model computes them in [Z].
    - The clock ([Date.now]) and the random bytes ([randomBytes]) are read by
      the caller and passed in.
    - Exceptions are explicit: every operation runs in the monad [M], which
      threads the [World] and either returns or throws.  The world survives
      a throw, as the database and the registry do in the source. *)

From Stdlib Require Import ZArith List String Ascii Bool Lia DecimalString.
From stdpp Require Import gmap strings list fin_maps sorting.

Local Open Scope string_scope.
Local Open Scope list_scope.

(** ** JavaScript values *)

Inductive number : Type :=
| Int (z : Z)
| NaN.

(** [a < b] and [a > b]: false as soon as one side is [NaN]. *)
Definition js_lt (a b : number) : bool :=
  match a, b with
  | Int x, Int y => (x <? y)%Z
  | _, _ => false
  end.

Definition js_gt (a b : number) : bool := js_lt b a.

(** [a === b] on numbers. *)
Definition js_strict_eq (a b : number) : bool :=
  match a, b with
  | Int x, Int y => (x =? y)%Z
  | _, _ => false
  end.

(** [!s] for [s : string | null | undefined]. *)
Definition js_not (s : option string) : bool :=
  match s with
  | None => true
  | Some s => String.eqb s ""
  end.

(** [a || b] on strings: [b] when [a] is absent or empty. *)
Definition js_or (a : option string) (b : string) : string :=
  if js_not a then b else default b a.

Definition code (c : ascii) : Z := Z.of_nat (nat_of_ascii c).

Definition is_digit (c : ascii) : bool := (48 <=? code c)%Z && (code c <=? 57)%Z.

Definition digit_value (c : ascii) : Z := (code c - 48)%Z.

(** Whitespace skipped by [parseInt] (StrWhiteSpaceChar, code units < 256). *)
Definition js_space (c : ascii) : bool :=
  ((9 <=? code c)%Z && (code c <=? 13)%Z) || (code c =? 32)%Z || (code c =? 160)%Z.

Fixpoint skip (p : ascii -> bool) (l : list ascii) : list ascii :=
  match l with
  | c :: l' => if p c then skip p l' else l
  | [] => []
  end.

(** The longest prefix of decimal digits, and what follows it. *)
Fixpoint span_digits (l : list ascii) : list ascii * list ascii :=
  match l with
  | c :: l' =>
      if is_digit c then let '(ds, rest) := span_digits l' in (c :: ds, rest)
      else ([], l)
  | [] => ([], [])
  end.

Definition decimal (ds : list ascii) : Z :=
  fold_left (fun acc c => (acc * 10 + digit_value c)%Z) ds 0%Z.

Definition split_sign (l : list ascii) : bool * list ascii :=
  match l with
  | "-"%char :: l' => (true, l')
  | "+"%char :: l' => (false, l')
  | _ => (false, l)
  end.

Definition signed (neg : bool) (z : Z) : Z := if neg then (- z)%Z else z.

(** [parseInt(s, 10)], and [parseInt(s)] on a string that does not start with
    [0x]: leading whitespace, an optional sign, then the longest run of
    digits; [NaN] when that run is empty. *)
Definition parseInt (s : string) : number :=
  let '(neg, l) := split_sign (skip js_space (list_ascii_of_string s)) in
  match fst (span_digits l) with
  | [] => NaN
  | ds => Int (signed neg (decimal ds))
  end.

(** JSON values, as far as the source builds them.  [JSON.stringify] prints
    [JNumber NaN] as [null]. *)
Inductive Json : Type :=
| JNumber (n : number)
| JString (s : string)
| JBool (b : bool).

(** An object literal: its own properties in insertion order. *)
Definition JsonObject : Type := list (string * Json).

Fixpoint get_field (k : string) (o : JsonObject) : option Json :=
  match o with
  | (k', v) :: o' => if String.eqb k k' then Some v else get_field k o'
  | [] => None
  end.

(** [type Item] (line 372). *)
Record Item : Type := mkItem {
  id : string;
  time : Z;
  expires : Z;
  topic : string;
  priority : number;
  message : string;
}.

(** [const timeout = 12 * 3600] (line 26). *)
Definition timeout : Z := 12 * 3600.

(** ** [getRandomId] (lines 367-370) *)

Definition alphabet : string :=
  "0123456789ABCDEFGHIJKLMNOPQRSTUVWXYZabcdefghijklmnopqrstuvwxyz".

(** [alphabet[byte % 62]] *)
Definition alphabet_at (b : Byte.byte) : ascii :=
  match String.get (N.to_nat (Byte.to_N b mod 62)) alphabet with
  | Some c => c
  | None => "0"%char
  end.

Fixpoint slice0 (n : nat) (s : string) : string :=
  match n, s with
  | S n', String c s' => String c (slice0 n' s')
  | _, _ => ""
  end.

(** [bytes] is the result of [randomBytes(length)]. *)
Definition getRandomId (bytes : list Byte.byte) : string :=
  slice0 (List.length bytes)
    (fold_left (fun result byte => (result ++ String (alphabet_at byte) "")%string) bytes "").

(** ** SQLite, as far as the three statements of the source use it *)

Inductive SqlValue : Type :=
| SqlNull
| SqlInteger (z : Z)
| SqlReal (m e : Z)        (* the decimal m * 10^e *)
| SqlText (s : string).

(** What [bun:sqlite] binds for a JavaScript argument: a string is TEXT, an
    integral number INTEGER, and [NaN] (bound as a double) becomes NULL. *)
Definition bind_string (s : string) : SqlValue := SqlText s.

Definition bind_number (n : number) : SqlValue :=
  match n with
  | Int z => SqlInteger z
  | NaN => SqlNull
  end.

Definition sqlite_space (c : ascii) : bool :=
  ((9 <=? code c)%Z && (code c <=? 13)%Z) || (code c =? 32)%Z.

(** The exponent part of a numeric literal: [None] when an [e] is not
    followed by digits. *)
Definition split_exponent (l : list ascii) : option (Z * list ascii) :=
  match l with
  | c :: l' =>
      if Ascii.eqb c "e" || Ascii.eqb c "E" then
        let '(neg, l1) := split_sign l' in
        match span_digits l1 with
        | ([], _) => None
        | (ds, l2) => Some (signed neg (decimal ds), l2)
        end
      else Some (0%Z, l)
  | [] => Some (0%Z, [])
  end.

(** NUMERIC affinity applied to a TEXT value: the text is converted when all
    of it, surrounding whitespace apart, is a well-formed integer or real
    literal, and is left as TEXT otherwise.  A REAL is kept as the exact
    decimal (SQLite rounds it to a double; the two order the same way against
    an integer for the short literals rule 2 binds, exponents outside the
    range of a double apart). *)
Definition numeric_affinity (s : string) : SqlValue :=
  let '(neg, l) := split_sign (skip sqlite_space (list_ascii_of_string s)) in
  let '(ip, l) := span_digits l in
  let '(fp, l) :=
    match l with
    | "."%char :: l' => span_digits l'
    | _ => ([], l)
    end in
  match ip ++ fp, split_exponent l with
  | (_ :: _) as ds, Some (ex, l) =>
      match skip sqlite_space l with
      | [] =>
          let e := (ex - Z.of_nat (List.length fp))%Z in
          if (e =? 0)%Z then SqlInteger (signed neg (decimal ds))
          else SqlReal (signed neg (decimal ds)) e
      | _ => SqlText s
      end
  | _, _ => SqlText s
  end.

(** [t >= m * 10^e] *)
Definition ge_decimal (t m e : Z) : bool :=
  if (0 <=? e)%Z then (m * 10 ^ e <=? t)%Z else (m <=? t * 10 ^ (- e))%Z.

(** The WHERE term ["time" >= ?] on a row whose "time" is the integer [t].
    The column has INTEGER affinity, so NUMERIC affinity is applied to the
    other side first.  NULL on either side gives NULL, which WHERE drops, and
    an integer sorts before every TEXT. *)
Definition time_ge (t : Z) (v : SqlValue) : bool :=
  match v with
  | SqlNull => false
  | SqlInteger z => (z <=? t)%Z
  | SqlReal m e => ge_decimal t m e
  | SqlText s =>
      match numeric_affinity s with
      | SqlInteger z => (z <=? t)%Z
      | SqlReal m e => ge_decimal t m e
      | _ => false
      end
  end.

(** ** The world: database, live registry, frames sent so far *)

Abbreviation WebSocket := nat (only parsing).

(** [JSON.stringify(o)] and [JSON.stringify(o) + "\n"]. *)
Inductive Payload : Type :=
| Stringify (o : JsonObject)
| StringifyLn (o : JsonObject).

Definition object_of (p : Payload) : JsonObject :=
  match p with
  | Stringify o => o
  | StringifyLn o => o
  end.

Record World : Type := mkWorld {
  db : option (list Item);     (* the "messages" table, rows in rowid order;
                                  [None] while the table does not exist *)
  _sockets : gmap string (gset WebSocket);
  sent : list (WebSocket * Payload);   (* [send] calls, oldest first *)
}.

Definition rows (w : World) : list Item := default [] (db w).

Definition set_db (d : option (list Item)) (w : World) : World :=
  mkWorld d (_sockets w) (sent w).

Definition set_sockets (m : gmap string (gset WebSocket)) (w : World) : World :=
  mkWorld (db w) m (sent w).

Definition send (client : WebSocket) (p : Payload) (w : World) : World :=
  mkWorld (db w) (_sockets w) (sent w ++ [(client, p)]).

Inductive SQLiteError : Type :=
| no_such_table
| not_null_constraint
| unique_constraint.

Inductive outcome (A : Type) : Type :=
| Returned (a : A)
| Thrown (e : SQLiteError).
Arguments Returned {A} a.
Arguments Thrown {A} e.

Definition M (A : Type) : Type := World -> World * outcome A.

#[global] Instance M_ret : MRet M := fun A a w => (w, Returned a).

#[global] Instance M_bind : MBind M := fun A B f c w =>
  match c w with
  | (w', Returned a) => f a w'
  | (w', Thrown e) => (w', Thrown e)
  end.

(** ** The statements *)

(** [CREATE TABLE IF NOT EXISTS "messages" (...)] *)
Definition create_table_if_not_exists : M unit := fun w =>
  (set_db (Some (rows w)) w, Returned tt).

Definition same_id (a b : Item) : bool := String.eqb (id a) (id b).

Definition same_key (a b : Item) : bool :=
  String.eqb (id a) (id b) && String.eqb (topic a) (topic b).

(** [INSERT INTO "messages" (...) VALUES (?, ?, ?, ?, ?, ?)] under the
    constraints of the table: the NOT NULL columns, ["id" ... UNIQUE] and
    [PRIMARY KEY("id", "topic")].  The new row gets the next rowid. *)
Definition insert_into (it : Item) : M unit := fun w =>
  match db w with
  | None => (w, Thrown no_such_table)
  | Some rs =>
      match bind_number (priority it) with
      | SqlNull => (w, Thrown not_null_constraint)
      | _ =>
          if existsb (same_id it) rs || existsb (same_key it) rs
          then (w, Thrown unique_constraint)
          else (set_db (Some (rs ++ [it])) w, Returned tt)
      end
  end.

(** [SELECT "id", "time", "expires", "topic", "message", "priority" FROM
    "messages" WHERE ...]: a scan of the table in rowid order.  The WHERE
    clause may hold a subquery, so it sees the table. *)
Definition select_where (cond : list Item -> Item -> bool) : M (list Item) := fun w =>
  match db w with
  | None => (w, Thrown no_such_table)
  | Some rs => (w, Returned (List.filter (cond rs) rs))
  end.

(** [DELETE FROM "messages" WHERE ...] *)
Definition delete_where (cond : Item -> bool) : M unit := fun w =>
  match db w with
  | None => (w, Thrown no_such_table)
  | Some rs => (set_db (Some (List.filter (fun r => negb (cond r)) rs)) w, Returned tt)
  end.

(** [(SELECT "time" FROM "messages" WHERE "id" = ?)] as a scalar: the first
    row's value, NULL when there is no row. *)
Definition time_of_id (rs : list Item) (i : string) : SqlValue :=
  match List.find (fun r => String.eqb (id r) i) rs with
  | Some r => SqlInteger (time r)
  | None => SqlNull
  end.

(** ** [_save] (lines 243-264) *)
Definition _save (it : Item) : M unit :=
  create_table_if_not_exists ;; insert_into it.

(** ** [_query] (lines 266-350) *)

Definition is_unit (c : ascii) : bool :=
  Ascii.eqb c "s" || Ascii.eqb c "m" || Ascii.eqb c "h" || Ascii.eqb c "d".

(** [since.match(/^(\d+)([smhd])$/)]: the two groups, or no match. *)
Definition duration_regex (s : string) : option (string * ascii) :=
  match span_digits (list_ascii_of_string s) with
  | ((_ :: _) as ds, [u]) =>
      if is_unit u then Some (string_of_list_ascii ds, u) else None
  | _ => None
  end.

Definition js_mul (a b : number) : number :=
  match a, b with
  | Int x, Int y => Int (x * y)
  | _, _ => NaN
  end.

Definition js_sub (a b : number) : number :=
  match a, b with
  | Int x, Int y => Int (x - y)
  | _, _ => NaN
  end.

(** The inner [switch (unit)] (lines 316-337). *)
Definition shift_back (timestamp : number) (num : string) (unit : ascii) : number :=
  if Ascii.eqb unit "s" || Ascii.eqb unit "S" then
    js_sub timestamp (js_mul (parseInt num) (Int 1))
  else if Ascii.eqb unit "m" || Ascii.eqb unit "M" then
    js_sub timestamp (js_mul (parseInt num) (Int 60))
  else if Ascii.eqb unit "h" || Ascii.eqb unit "H" then
    js_sub timestamp (js_mul (parseInt num) (Int 3600))
  else if Ascii.eqb unit "d" || Ascii.eqb unit "D" then
    js_sub timestamp (js_mul (js_mul (parseInt num) (Int 3600)) (Int 24))
  else timestamp.

Definition topic_is (t : string) (r : Item) : bool := String.eqb (topic r) t.

(** [now] is [Math.floor(Date.now() / 1000)]; [since] is
    [params.get("since")], [None] when the parameter is missing. *)
Definition _query (now : Z) (topic0 : string) (since : option string) : M (list Item) :=
  if js_not since then
    select_where (fun _ r => topic_is topic0 r)
  else
    let since := default "" since in
    if String.eqb since "all" then
      select_where (fun _ r => topic_is topic0 r)
    else if (String.length since =? 10)%nat then
      select_where (fun _ r => topic_is topic0 r && time_ge (time r) (bind_string since))
    else if (String.length since =? 12)%nat then
      select_where (fun rs r => topic_is topic0 r && time_ge (time r) (time_of_id rs since))
    else
      match duration_regex since with
      | Some (num, unit) =>
          let timestamp := shift_back (Int now) num unit in
          select_where (fun _ r => topic_is topic0 r && time_ge (time r) (bind_number timestamp))
      | None => mret []
      end.

(** ** [_remove_expired] (lines 352-359) *)
Definition _remove_expired (now : Z) : M unit :=
  delete_where (fun r => (expires r <? now)%Z).

(** ** The live registry (lines 93-129 and 193-198) *)

(** [/^[A-Za-z0-9\-_]+$/.test(s)] *)
Definition topic_char (c : ascii) : bool :=
  ((65 <=? code c)%Z && (code c <=? 90)%Z) || ((97 <=? code c)%Z && (code c <=? 122)%Z)
  || is_digit c || Ascii.eqb c "-" || Ascii.eqb c "_".

Definition topic_regex (s : string) : bool :=
  match list_ascii_of_string s with
  | [] => false
  | l => forallb topic_char l
  end.

(** The body of [topics.forEach] (lines 107-108): create the set when the
    topic has none, then add the client to it. *)
Definition add_client (client : WebSocket) (m : gmap string (gset WebSocket)) (topic0 : string)
  : gmap string (gset WebSocket) :=
  let m := if m !! topic0 is Some _ then m else <[topic0 := ∅]> m in
  alter (fun sockets_set => sockets_set ∪ {[client]}) topic0 m.

Definition open_event (i : string) (now : Z) (topics : list string) : JsonObject :=
  [("id", JString i); ("time", JNumber (Int now)); ("event", JString "open");
   ("topic", JString (String.concat "," topics))].

(** The [connection] handler.  [topics] is [topic_string?.split(",")], and
    [None] also when the request has no url; a client turned away is closed
    before any listener is attached, so nothing else happens for it. *)
Definition connection (now : Z) (bytes : list Byte.byte) (client : WebSocket)
    (topics : option (list string)) (w : World) : World :=
  match topics with
  | Some ((_ :: _) as ts) =>
      if forallb topic_regex ts then
        send client (Stringify (open_event (getRandomId bytes) now ts))
          (set_sockets (fold_left (add_client client) ts (_sockets w)) w)
      else w
  | _ => w
  end.

(** [_close]: every entry of the map is visited once; the client leaves the
    set, and the entry is deleted when the set is then empty. *)
Definition _close (server : WebSocket) (m : gmap string (gset WebSocket))
  : gmap string (gset WebSocket) :=
  omap (fun sockets_set =>
          let s := sockets_set ∖ {[server]} in
          if bool_decide (size s = 0%nat) then None else Some s) m.

(** The [close] and [error] listeners of a registered client. *)
Definition on_close (client : WebSocket) (w : World) : World :=
  set_sockets (_close client (_sockets w)) w.

(** ** [_broadcast] (lines 200-241) *)

Inductive Body : Type :=
| ErrorText                       (* the text "Error" *)
| Tutorial                        (* the text of [tutorial] *)
| JsonBody (p : Payload)
| NdjsonBody (lines : list JsonObject).   (* lines joined by "\n", then "\n" *)

Record Response : Type := mkResponse {
  status : Z;
  headers : list (string * string);
  body : Body;
}.

(** [...(priority === 3 ? {} : { priority })] *)
Definition priority_spread (p : number) : JsonObject :=
  if js_strict_eq p (Int 3) then [] else [("priority", JNumber p)].

Definition message_event (i : string) (t : Z) (topic0 content : string) (p : number)
  : JsonObject :=
  [("id", JString i); ("time", JNumber (Int t)); ("expires", JNumber (Int (t + timeout)));
   ("event", JString "message"); ("topic", JString topic0); ("message", JString content)]
  ++ priority_spread p.

(** The clients [_sockets.get(topic)?.forEach] visits. *)
Definition subscribers (topic0 : string) (w : World) : list WebSocket :=
  if _sockets w !! topic0 is Some sockets_set then elements sockets_set else [].

(** [_sockets.get(topic)?.forEach((server) => server.send(p))] *)
Definition send_to_topic (topic0 : string) (p : Payload) : M unit := fun w =>
  (fold_left (fun w server => send server p w) (subscribers topic0 w) w, Returned tt).

Definition _broadcast (now : Z) (bytes : list Byte.byte) (topic0 : string)
    (priority0 : number) (content : string) : M Response :=
  let t := now in
  let i := getRandomId bytes in
  let item := mkItem i t (t + timeout) topic0 priority0 content in
  _save item ;;
  send_to_topic topic0 (StringifyLn (message_event i t topic0 content priority0)) ;;
  mret (mkResponse 200 [("Content-Type", "application/json")]
          (JsonBody (StringifyLn (message_event i t topic0 content priority0)))).

(** ** [_fetch] (lines 133-191) *)

(** [request.headers["x-priority"]] *)
Inductive HeaderValue : Type :=
| Undefined
| One (s : string)
| Many (l : list string).

(** [Array.isArray(h) ? h[0] : h] *)
Definition first_value (h : HeaderValue) : option string :=
  match h with
  | Undefined => None
  | One s => Some s
  | Many l => head l
  end.

(** What the handler reads of [request.url]: [pathname.split("/")] gives
    [topic_string] and [command], [searchParams] gives [since]. *)
Record Url : Type := mkUrl {
  topics : option (list string);     (* [topic_string?.split(",")] *)
  command : option string;
  since : option string;             (* [params.get("since")] *)
}.

Record Request : Type := mkRequest {
  url : option Url;
  method : string;
  x_priority : HeaderValue;
  content : string;                  (* the body, read to its end *)
}.

(** [{ ...item, ...(priority === 3 ? {} : { priority }), event: "message" }] *)
Definition query_line (r : Item) : JsonObject :=
  [("id", JString (id r)); ("time", JNumber (Int (time r)));
   ("expires", JNumber (Int (expires r))); ("topic", JString (topic r));
   ("message", JString (message r))]
  ++ priority_spread (priority r) ++ [("event", JString "message")].

Definition bad_request : Response :=
  mkResponse 400 [("Content-Type", "text/plain")] Tutorial.

Definition invalid_priority : Response :=
  mkResponse 400
    [("Content-Type", "application/json"); ("Access-Control-Allow-Origin", "*")]
    (JsonBody (StringifyLn
       [("code", JNumber (Int 40007)); ("http", JNumber (Int 400));
        ("error", JString "invalid priority parameter");
        ("link", JString "https://ntfy.sh/docs/publish/#message-priority")])).

Definition _fetch (now : Z) (bytes : list Byte.byte) (request : Request) : M Response :=
  match url request with
  | None => mret (mkResponse 400 [("Content-Type", "text/plain")] ErrorText)
  | Some u =>
      match topics u with
      | Some ((topic0 :: _) as ts) =>
          if negb (forallb topic_regex ts) then mret bad_request
          else if String.eqb (method request) "GET"
                  && bool_decide (command u = Some "auth") then
            mret (mkResponse 200 [("Content-Type", "application/json")]
                    (JsonBody (Stringify [("success", JBool true)])))
          else if String.eqb (method request) "GET"
                  && bool_decide (command u = Some "json") then
            items ← _query now topic0 (since u);
            mret (mkResponse 200
                    [("Content-Type", "application/x-ndjson; charset=utf-8");
                     ("Access-Control-Allow-Origin", "*"); ("Cache-Control", "no-cache")]
                    (NdjsonBody (map query_line items)))
          else if (String.eqb (method request) "POST" || String.eqb (method request) "PUT")
                  && js_not (command u) then
            let priority0 := parseInt (js_or (first_value (x_priority request)) "3") in
            if js_lt priority0 (Int 1) || js_gt priority0 (Int 5) then mret invalid_priority
            else _broadcast now bytes topic0 priority0 (js_or (Some (content request)) "triggered")
          else mret bad_request
      | _ => mret bad_request
      end
  end.

(** ** The server as a whole *)

(** What can happen to a running broker: a client connects, a registered
    client closes or fails, a request arrives, the hourly sweep fires. *)
Inductive Operation : Type :=
| Connect (now : Z) (bytes : list Byte.byte) (client : WebSocket) (topics : option (list string))
| Close (client : WebSocket)
| Fetch (now : Z) (bytes : list Byte.byte) (request : Request)
| Sweep (now : Z).

Definition run (w : World) (op : Operation) : World :=
  match op with
  | Connect now bytes client ts => connection now bytes client ts w
  | Close client => on_close client w
  | Fetch now bytes request => fst (_fetch now bytes request w)
  | Sweep now => fst (_remove_expired now w)
  end.

(** The world when the module has been loaded over the database [d]:
    [_sockets] is empty (line 93) and nothing was sent yet. *)
Definition loaded (d : option (list Item)) : World := mkWorld d ∅ [].

(** ** Notions of the specification *)

(** A fully-populated record: no column of the INSERT is null. *)
Definition fully_populated (it : Item) : Prop := priority it <> NaN.

(** A row with the same [(id, topic)] pair, or with the same [id], is stored. *)
Definition key_present (it : Item) (w : World) : bool := existsb (same_key it) (rows w).

Definition id_present (it : Item) (w : World) : bool := existsb (same_id it) (rows w).

(** Ascending [time]. *)
Definition ascending_time (l : list Item) : Prop :=
  StronglySorted (fun a b => (time a <= time b)%Z) l.

(** A resolved since-filter (section 4.3): no lower bound, a lower bound on
    [time], or no match at all. *)
Inductive Filter : Type :=
| NoBound
| Since (v : SqlValue)
| NoMatch.

Definition matches (f : Filter) (r : Item) : bool :=
  match f with
  | NoBound => true
  | Since v => time_ge (time r) v
  | NoMatch => false
  end.

(** [queryByTopic] (section 4.1): the rows of the topic that match the
    filter, in storage order. *)
Definition queryByTopic (topic0 : string) (f : Filter) (rs : list Item) : list Item :=
  List.filter (fun r => topic_is topic0 r && matches f r) rs.

(** The filter the switch of [_query] arrives at for a selector. *)
Definition resolve (now : Z) (rs : list Item) (since : option string) : Filter :=
  match since with
  | None => NoBound
  | Some s =>
      if String.eqb s "" || String.eqb s "all" then NoBound
      else if (String.length s =? 10)%nat then Since (SqlText s)
      else if (String.length s =? 12)%nat then Since (time_of_id rs s)
      else match duration_regex s with
           | Some (num, unit) => Since (bind_number (shift_back (Int now) num unit))
           | None => NoMatch
           end
  end.

(** Rule 2 of section 4.3 for the timestamp [since]: the messages of the
    topic with [time >= since]. *)
Definition rule2 (topic0 : string) (since : Z) (rs : list Item) : list Item :=
  List.filter (fun r => topic_is topic0 r && (since <=? time r)%Z) rs.

(** Rule 3 of section 4.3: resolve the id to the time of its message, then
    the messages of the topic from that time on; nothing when no message has
    the id. *)
Definition rule3 (topic0 : string) (i : string) (rs : list Item) : list Item :=
  match List.find (fun r => String.eqb (id r) i) rs with
  | Some m => rule2 topic0 (time m) rs
  | None => []
  end.


(** A selector none of the rules 1 to 4 recognises. *)
Definition unrecognized (s : string) : Prop :=
  s <> "" /\ s <> "all" /\ String.length s <> 10%nat /\ String.length s <> 12%nat
  /\ duration_regex s = None.

(** A request that takes the publish branch of [_fetch] for [topic0]. *)
Definition publishes (request : Request) (topic0 : string) : Prop :=
  exists u ts,
    url request = Some u /\ topics u = Some (topic0 :: ts)
    /\ forallb topic_regex (topic0 :: ts) = true
    /\ (method request = "POST" \/ method request = "PUT")
    /\ js_not (command u) = true.

(** The [priority] field of a wire record for a message of priority [p]:
    left out when [p] is 3, present with the value otherwise. *)
Definition priority_field (p : number) (o : JsonObject) : Prop :=
  (p = Int 3 <-> get_field "priority" o = None)
  /\ (p <> Int 3 -> get_field "priority" o = Some (JNumber p)).

(** The frames sent since the world [w]. *)
Definition sent_since (w w' : World) : list (WebSocket * Payload) :=
  drop (List.length (sent w)) (sent w').

(** The wire records the broker produces for a message of priority [p]: the
    live event of [_broadcast], the acknowledgment it answers with, and the
    lines of the replay response. *)
Inductive wire_record (p : number) (o : JsonObject) : Prop :=
| live_event now bytes topic0 content0 w w' resp client pl :
    _broadcast now bytes topic0 p content0 w = (w', Returned resp) ->
    (client, pl) ∈ sent_since w w' ->
    o = object_of pl ->
    wire_record p o
| acknowledgment now bytes topic0 content0 w w' resp pl :
    _broadcast now bytes topic0 p content0 w = (w', Returned resp) ->
    body resp = JsonBody pl ->
    o = object_of pl ->
    wire_record p o
| replay_line now bytes request u topic0 ts w w' resp items lines (n : nat) r :
    url request = Some u ->
    topics u = Some (topic0 :: ts) ->
    command u = Some "json" ->
    _query now topic0 (since u) w = (w', Returned items) ->
    _fetch now bytes request w = (w', Returned resp) ->
    body resp = NdjsonBody lines ->
    items !! n = Some r ->
    lines !! n = Some o ->
    p = priority r ->
    wire_record p o.

(** No topic of the registry has an empty set. *)
Definition registry_ok (m : gmap string (gset WebSocket)) : Prop :=
  forall topic0 sockets_set, m !! topic0 = Some sockets_set -> sockets_set <> ∅.

(** ** The listeners of the server and its start (lines 17-31 and 62-89) *)

(** The [request] listener: its own check of the url and the topics, then
    [_fetch]. *)
Definition on_request (now : Z) (bytes : list Byte.byte) (request : Request) : M Response :=
  match url request with
  | None => mret (mkResponse 400 [("Content-Type", "text/plain")] ErrorText)
  | Some u =>
      match topics u with
      | Some ((_ :: _) as ts) =>
          if negb (forallb topic_regex ts) then mret bad_request
          else _fetch now bytes request
      | _ => mret bad_request
      end
  end.

(** The [upgrade] listener: the command [ws] hands the socket to the
    [connection] handler, any other socket is destroyed. *)
Definition upgrade (now : Z) (bytes : list Byte.byte) (client : WebSocket)
    (url0 : option Url) (w : World) : World :=
  match url0 with
  | None => w
  | Some u =>
      if bool_decide (command u = Some "ws") then connection now bytes client (topics u) w
      else w
  end.




(** ** Further notions *)

(** The clients registered for a topic. *)
Definition members (m : gmap string (gset WebSocket)) (topic0 : string) : gset WebSocket :=
  default ∅ (m !! topic0).

(** What [_fetch] stores for a publish: the expiry 12 hours after the time, a
    priority from 1 to 5, a body that is not empty, a valid topic. *)
Definition published_row (r : Item) : Prop :=
  expires r = (time r + 43200)%Z
  /\ (exists p, priority r = Int p /\ (1 <= p <= 5)%Z)
  /\ message r <> ""
  /\ topic_regex (topic r) = true.

(** A letter or a digit. *)
Definition alphanumeric (c : ascii) : bool :=
  is_digit c || ((65 <=? code c)%Z && (code c <=? 90)%Z)
  || ((97 <=? code c)%Z && (code c <=? 122)%Z).

(** The 256 values of a byte. *)
Definition all_bytes : list Byte.byte :=
  omap (fun n => Byte.of_N (N.of_nat n)) (seq 0 256).

(** The row a publish builds (lines 205-213). *)
Definition new_item (now : Z) (bytes : list Byte.byte) (topic0 : string)
    (p : number) (content0 : string) : Item :=
  mkItem (getRandomId bytes) now (now + timeout) topic0 p content0.



(** ** [JSON.stringify] on the records of the source, and the texts sent *)

Definition quote : ascii := ascii_of_nat 34.

Definition line_feed : ascii := ascii_of_nat 10.

Definition hex_digit (n : nat) : ascii :=
  default "0"%char (String.get n "0123456789abcdef").

(** What [JSON.stringify] writes for one code unit of a string: the short
    escapes, [\u00XX] for the other control characters, the unit itself
    otherwise. *)
Definition escape (c : ascii) : string :=
  let n := nat_of_ascii c in
  if (n =? 8)%nat then "\b"
  else if (n =? 9)%nat then "\t"
  else if (n =? 10)%nat then "\n"
  else if (n =? 12)%nat then "\f"
  else if (n =? 13)%nat then "\r"
  else if (n =? 34)%nat then String "\" (String quote "")
  else if (n =? 92)%nat then "\\"
  else if (n <? 32)%nat then
    String "\" (String "u" (String "0" (String "0"
      (String (hex_digit (n / 16)) (String (hex_digit (n mod 16)) "")))))
  else String c "".

Definition stringify_string (s : string) : string :=
  String quote
    (String.concat "" (map escape (list_ascii_of_string s)) ++ String quote "")%string.

(** An integer prints in decimal (as JavaScript does below 10^21), [NaN] as
    [null]. *)
Definition stringify_number (n : number) : string :=
  match n with
  | Int z => NilZero.string_of_int (Z.to_int z)
  | NaN => "null"
  end.

Definition stringify_value (v : Json) : string :=
  match v with
  | JNumber n => stringify_number n
  | JString s => stringify_string s
  | JBool b => if b then "true" else "false"
  end.

(** [JSON.stringify(o)] *)
Definition stringify (o : JsonObject) : string :=
  ("{" ++ String.concat ","
            (map (fun kv => stringify_string (fst kv) ++ ":" ++ stringify_value (snd kv)) o)
   ++ "}")%string.

(** The text of a frame or of an answer with one record. *)
Definition payload_text (p : Payload) : string :=
  match p with
  | Stringify o => stringify o
  | StringifyLn o => (stringify o ++ String line_feed "")%string
  end.

(** [items.map(...).join("\n") + "\n"] (lines 157-158). *)
Definition ndjson_text (lines : list JsonObject) : string :=
  (String.concat (String line_feed "") (map stringify lines) ++ String line_feed "")%string.

(** The line feeds of a text. *)
Definition line_feeds (s : string) : nat :=
  List.length (List.filter (Ascii.eqb line_feed) (list_ascii_of_string s)).

(** No control character: every code unit is 32 or more. *)
Definition printable (s : string) : bool :=
  forallb (fun c => (32 <=? code c)%Z) (list_ascii_of_string s).

(** * Properties *)

(** ** Running the monad *)

Ltac run_M :=
  unfold mbind, M_bind, mret, M_ret in *; simpl in *.

Lemma set_db_same (w : World) : set_db (db w) w = w.
Proof. by destruct w. Qed.

Lemma rows_set_db (rs : list Item) (w : World) : rows (set_db (Some rs) w) = rs.
Proof. done. Qed.

Lemma db_rows (w : World) (rs : list Item) : db w = Some rs -> rows w = rs.
Proof. unfold rows. by intros ->. Qed.

(** ** The message log *)

Lemma same_key_same_id (it : Item) (rs : list Item) :
  existsb (same_key it) rs = true -> existsb (same_id it) rs = true.
Proof.
  rewrite !existsb_exists. intros (r & Hr & Hk). exists r. split; [done|].
  unfold same_key in Hk. unfold same_id. by apply andb_true_iff in Hk as [-> _].
Qed.

Lemma _save_fresh (it : Item) (w : World) :
  fully_populated it -> id_present it w = false ->
  _save it w = (set_db (Some (rows w ++ [it])) w, Returned tt).
Proof.
  unfold fully_populated, id_present, _save, create_table_if_not_exists, insert_into.
  intros Hp Hid. run_M. destruct (priority it) eqn:Ep; [|done]. simpl.
  rewrite Hid. simpl.
  destruct (existsb (same_key it) (rows w)) eqn:Ek; [|done].
  apply same_key_same_id in Ek. congruence.
Qed.

Lemma _save_taken (it : Item) (w : World) :
  fully_populated it -> id_present it w = true ->
  _save it w = (w, Thrown unique_constraint).
Proof.
  unfold fully_populated, id_present, _save, create_table_if_not_exists, insert_into.
  intros Hp Hid. run_M. destruct (priority it) eqn:Ep; [|done]. simpl.
  rewrite Hid. simpl. f_equal.
  destruct w as [[rs|] m snt]; [done|]. by compute in Hid.
Qed.

(** Whatever the record, a stored id makes the insert throw and leaves the
    world as it was. *)
Lemma _save_stored_id (it : Item) (w : World) :
  id_present it w = true -> exists e, _save it w = (w, Thrown e).
Proof.
  intros Hid. destruct (priority it) as [z|] eqn:Ep.
  - exists unique_constraint. apply _save_taken; [|done]. unfold fully_populated. congruence.
  - exists not_null_constraint.
    unfold id_present, _save, create_table_if_not_exists, insert_into in *. run_M.
    rewrite Ep. simpl. f_equal. destruct w as [[rs|] m snt]; [done|]. by compute in Hid.
Qed.

(** C1, as the schema has it.  ["id"] is declared UNIQUE on its own, so for a
    fully-populated record [_save] fails with a constraint violation exactly
    when a row with the same id is stored, under whatever topic: with a fresh
    id the record is appended and nothing else changes, with a stored id
    (which covers every stored [(id, topic)] pair) the insert throws and the
    world is left as it was. *)
Theorem save_fails_iff_id_stored (it : Item) (w : World) :
  fully_populated it ->
  (id_present it w = false ->
     _save it w = (set_db (Some (rows w ++ [it])) w, Returned tt))
  /\ (id_present it w = true -> _save it w = (w, Thrown unique_constraint))
  /\ (key_present it w = true -> id_present it w = true).
Proof.
  intros Hp. split; [|split].
  - by apply _save_fresh.
  - by apply _save_taken.
  - apply same_key_same_id.
Qed.

Lemma save_fails_iff_id_stored_witness :
  let it := mkItem "uP4ID5x0fkQh" 200 43400 "ops" (Int 4) "b" in
  let w := loaded (Some [mkItem "Zk3q0Lm9TtA1" 100 43300 "ops" (Int 3) "a"]) in
  fully_populated it /\ _save it w = (set_db (Some (rows w ++ [it])) w, Returned tt).
Proof.
  split; [done|].
  apply (save_fails_iff_id_stored
           (mkItem "uP4ID5x0fkQh" 200 43400 "ops" (Int 4) "b")
           (loaded (Some [mkItem "Zk3q0Lm9TtA1" 100 43300 "ops" (Int 3) "a"]))); done.
Defined.

(** Uniqueness of the pair alone is not the rule: the pair [(id, "ops")] is not stored, the record is
    fully populated, and still the insert is refused, because the id is
    stored under the topic "alerts". *)
Lemma save_new_pair_refused :
  let it := mkItem "uP4ID5x0fkQh" 200 43400 "ops" (Int 3) "b" in
  let w := loaded (Some [mkItem "uP4ID5x0fkQh" 100 43300 "alerts" (Int 3) "a"]) in
  fully_populated it /\ key_present it w = false
  /\ _save it w = (w, Thrown unique_constraint).
Proof. repeat split; done. Qed.

Lemma filter_negb_lt (now : Z) (rs : list Item) :
  List.filter (fun r => negb (expires r <? now)%Z) rs
  = List.filter (fun r => (now <=? expires r)%Z) rs.
Proof.
  apply filter_ext. intros r. destruct (Z.ltb_spec (expires r) now), (Z.leb_spec now (expires r)); simpl; lia || done.
Qed.

Lemma filter_filter_same {A} (f : A -> bool) (l : list A) :
  List.filter f (List.filter f l) = List.filter f l.
Proof.
  induction l as [|a l IH]; [done|]. simpl. destruct (f a) eqn:E; simpl; rewrite ?E, IH; done.
Qed.

(** C3.  On a store with rows [rs], the sweep at [now] returns, keeps
    exactly the rows with [expires >= now] (unchanged, in their order), so
    every row with [expires < now] is gone, and a second sweep at the same
    [now] changes nothing. *)
Theorem sweep_keeps_unexpired (now : Z) (w : World) (rs : list Item) :
  db w = Some rs ->
  exists w',
    _remove_expired now w = (w', Returned tt)
    /\ w' = set_db (Some (List.filter (fun r => (now <=? expires r)%Z) rs)) w
    /\ (forall r, r ∈ rows w' <-> r ∈ rs /\ (now <= expires r)%Z)
    /\ (forall r, r ∈ rs -> (expires r < now)%Z -> r ∉ rows w')
    /\ _remove_expired now w' = (w', Returned tt).
Proof.
  intros Hdb. eexists. unfold _remove_expired, delete_where. rewrite Hdb.
  rewrite filter_negb_lt. split; [reflexivity|]. split; [reflexivity|].
  rewrite rows_set_db. split; [|split].
  - intros r. rewrite !list_elem_of_In, filter_In, Z.leb_le. done.
  - intros r _ Hlt. rewrite list_elem_of_In, filter_In, Z.leb_le. lia.
  - simpl. rewrite filter_negb_lt, filter_filter_same. done.
Qed.

Lemma sweep_keeps_unexpired_witness :
  exists w',
    _remove_expired 43350
      (loaded (Some [mkItem "Zk3q0Lm9TtA1" 100 43300 "ops" (Int 3) "a";
                     mkItem "uP4ID5x0fkQh" 200 43400 "ops" (Int 4) "b"]))
    = (w', Returned tt)
    /\ rows w' = [mkItem "uP4ID5x0fkQh" 200 43400 "ops" (Int 4) "b"].
Proof.
  destruct (sweep_keeps_unexpired 43350
              (loaded (Some [mkItem "Zk3q0Lm9TtA1" 100 43300 "ops" (Int 3) "a";
                             mkItem "uP4ID5x0fkQh" 200 43400 "ops" (Int 4) "b"]))
              _ eq_refl) as (w' & Hrun & -> & _).
  eexists. split; [exact Hrun | reflexivity].
Defined.

(** ** Facts on lists *)

Section ListFacts.
Context {A : Type}.
Implicit Types (f g : A -> bool) (l : list A).

Lemma filter_none f l : (forall a, f a = false) -> List.filter f l = [].
Proof.
  intros Hf. induction l as [|a l IH]; [done|]. simpl. by rewrite Hf.
Qed.

Lemma filter_sublist f l : sublist (List.filter f l) l.
Proof.
  induction l as [|a l IH]; simpl; [constructor|].
  destruct (f a); by constructor.
Qed.

Lemma filter_elem_of f l a : a ∈ List.filter f l <-> a ∈ l /\ f a = true.
Proof. by rewrite !list_elem_of_In, filter_In. Qed.

Lemma filter_StronglySorted (R : A -> A -> Prop) f l :
  StronglySorted R l -> StronglySorted R (List.filter f l).
Proof.
  induction 1 as [|a l Hl IH Ha]; simpl; [constructor|].
  destruct (f a); [|done]. constructor; [done|].
  rewrite Forall_forall in *. intros b Hb. apply Ha.
  apply filter_elem_of in Hb. tauto.
Qed.
End ListFacts.

(** ** Digits *)

Lemma digit_plain (c : ascii) :
  is_digit c = true ->
  sqlite_space c = false /\ js_space c = false /\ is_unit c = false
  /\ forall l, split_sign (c :: l) = (false, c :: l).
Proof.
  destruct c as [b0 b1 b2 b3 b4 b5 b6 b7].
  destruct b0, b1, b2, b3, b4, b5, b6, b7;
    intros H; vm_compute in H; try discriminate H; repeat split.
Qed.


Lemma span_digits_app (ds rest : list ascii) :
  forallb is_digit ds = true ->
  match rest with c :: _ => is_digit c = false | [] => True end ->
  span_digits (ds ++ rest) = (ds, rest).
Proof.
  intros Hds Hrest. induction ds as [|c ds IH]; simpl in *.
  - destruct rest as [|c rest]; [done|]. simpl. by rewrite Hrest.
  - apply andb_true_iff in Hds as [-> Hds]. by rewrite IH.
Qed.

Lemma span_digits_all (ds : list ascii) :
  forallb is_digit ds = true -> span_digits ds = (ds, []).
Proof.
  intros Hds. rewrite <- (app_nil_r ds) at 1. by apply span_digits_app.
Qed.

(** A run of digits is an integer literal for SQLite and for [parseInt]. *)
Lemma numeric_affinity_digits (ds : list ascii) :
  ds <> [] -> forallb is_digit ds = true ->
  numeric_affinity (string_of_list_ascii ds) = SqlInteger (decimal ds).
Proof.
  intros Hne Hds. unfold numeric_affinity.
  rewrite list_ascii_of_string_of_list_ascii.
  destruct ds as [|c ds]; [done|].
  pose proof Hds as Hc. simpl in Hc. apply andb_true_iff in Hc as [Hc _].
  destruct (digit_plain c Hc) as (Hsp & _ & _ & Hsign).
  cbn [skip]. rewrite Hsp, Hsign, (span_digits_all _ Hds).
  rewrite app_nil_r. done.
Qed.

Lemma parseInt_digits (ds : list ascii) :
  ds <> [] -> forallb is_digit ds = true ->
  parseInt (string_of_list_ascii ds) = Int (decimal ds).
Proof.
  intros Hne Hds. unfold parseInt.
  rewrite list_ascii_of_string_of_list_ascii.
  destruct ds as [|c ds]; [done|].
  pose proof Hds as Hc. simpl in Hc. apply andb_true_iff in Hc as [Hc _].
  destruct (digit_plain c Hc) as (_ & Hsp & _ & Hsign).
  cbn [skip]. rewrite Hsp, Hsign, (span_digits_all _ Hds). done.
Qed.

(** ** The replay query *)

Lemma queryByTopic_NoBound (topic0 : string) (rs : list Item) :
  queryByTopic topic0 NoBound rs = List.filter (topic_is topic0) rs.
Proof. apply filter_ext. intros r. apply andb_true_r. Qed.

Lemma queryByTopic_NoMatch (topic0 : string) (rs : list Item) :
  queryByTopic topic0 NoMatch rs = [].
Proof. apply filter_none. intros r. apply andb_false_r. Qed.

Lemma queryByTopic_integer (topic0 : string) (z : Z) (rs : list Item) :
  queryByTopic topic0 (Since (SqlInteger z)) rs = rule2 topic0 z rs.
Proof. done. Qed.

Lemma queryByTopic_null (topic0 : string) (rs : list Item) :
  queryByTopic topic0 (Since SqlNull) rs = [].
Proof. apply filter_none. intros r. apply andb_false_r. Qed.

Lemma queryByTopic_id (topic0 i : string) (rs : list Item) :
  queryByTopic topic0 (Since (time_of_id rs i)) rs = rule3 topic0 i rs.
Proof.
  unfold time_of_id, rule3.
  destruct (find _ rs); [apply queryByTopic_integer | apply queryByTopic_null].
Qed.

(** The switch of [_query] issues the statement of the resolved filter, and
    returns without a throw whenever the table exists. *)
Lemma _query_resolve (now : Z) (topic0 : string) (since : option string)
    (w : World) (rs : list Item) :
  db w = Some rs ->
  _query now topic0 since w
  = (w, Returned (queryByTopic topic0 (resolve now rs since) rs)).
Proof.
  intros Hdb. unfold _query, resolve, select_where.
  destruct since as [s|]; simpl.
  - destruct (String.eqb s "") eqn:E0; simpl.
    { by rewrite Hdb, queryByTopic_NoBound. }
    destruct (String.eqb s "all") eqn:E1.
    { by rewrite Hdb, queryByTopic_NoBound. }
    destruct (String.length s =? 10)%nat; [by rewrite Hdb|].
    destruct (String.length s =? 12)%nat; [by rewrite Hdb|].
    destruct (duration_regex s) as [[num unit]|]; [by rewrite Hdb|].
    by rewrite queryByTopic_NoMatch.
  - by rewrite Hdb, queryByTopic_NoBound.
Qed.

(** C2, as the statements have it.  None of them has an ORDER BY: the replay
    query returns every stored row of the topic that satisfies the resolved
    filter, and no other row, in storage order; the result is in ascending
    [time] whenever the stored rows are. *)
Theorem query_matches_in_storage_order (now : Z) (topic0 : string)
    (since : option string) (w : World) (rs : list Item) :
  db w = Some rs ->
  exists res,
    _query now topic0 since w = (w, Returned res)
    /\ (forall r, r ∈ res <->
          r ∈ rs /\ topic r = topic0 /\ matches (resolve now rs since) r = true)
    /\ sublist res rs
    /\ (ascending_time rs -> ascending_time res).
Proof.
  intros Hdb. eexists. split; [by apply _query_resolve|].
  unfold queryByTopic. split; [|split].
  - intros r. rewrite filter_elem_of, andb_true_iff. unfold topic_is.
    rewrite String.eqb_eq. tauto.
  - apply filter_sublist.
  - apply filter_StronglySorted.
Qed.

Lemma query_matches_in_storage_order_witness :
  exists res,
    _query 1000 "alerts" (Some "0000000150")
      (loaded (Some [mkItem "Zk3q0Lm9TtA1" 100 43300 "alerts" (Int 3) "a";
                     mkItem "uP4ID5x0fkQh" 200 43400 "alerts" (Int 4) "b"]))
    = (loaded (Some [mkItem "Zk3q0Lm9TtA1" 100 43300 "alerts" (Int 3) "a";
                     mkItem "uP4ID5x0fkQh" 200 43400 "alerts" (Int 4) "b"]),
       Returned res)
    /\ sublist res [mkItem "Zk3q0Lm9TtA1" 100 43300 "alerts" (Int 3) "a";
                    mkItem "uP4ID5x0fkQh" 200 43400 "alerts" (Int 4) "b"].
Proof.
  destruct (query_matches_in_storage_order 1000 "alerts" (Some "0000000150")
              (loaded (Some [mkItem "Zk3q0Lm9TtA1" 100 43300 "alerts" (Int 3) "a";
                             mkItem "uP4ID5x0fkQh" 200 43400 "alerts" (Int 4) "b"]))
              _ eq_refl) as (res & Hrun & _ & Hsub & _).
  exists res. split; [exact Hrun | exact Hsub].
Defined.

(** The order is not always ascending [time].  Two messages are published to one topic, the second
    after the clock was set back from 200 to 100; the replay returns them in
    the order they were stored, times 200 then 100, which is not ascending. *)
Lemma query_not_sorted_by_time :
  let first := [Byte.x11; Byte.x22; Byte.x33; Byte.x44; Byte.x55; Byte.x66;
                Byte.x77; Byte.x88; Byte.x99; Byte.xaa; Byte.xbb; Byte.xcc] in
  let second := [Byte.x0f; Byte.x1e; Byte.x2d; Byte.x3c; Byte.x4b; Byte.x5a;
                 Byte.x69; Byte.x78; Byte.x87; Byte.x96; Byte.xa5; Byte.xb4] in
  let w1 := fst (_broadcast 200 first "alerts" (Int 3) "a" (loaded (Some []))) in
  let w2 := fst (_broadcast 100 second "alerts" (Int 3) "b" w1) in
  exists res,
    _query 300 "alerts" None w2 = (w2, Returned res)
    /\ map time res = [200; 100]%Z
    /\ ~ ascending_time res.
Proof.
  eexists. split; [vm_compute; reflexivity|]. split; [reflexivity|].
  intros H. inversion H as [|a l _ Hall]; subst.
  inversion Hall as [|b l' Hle _]; subst. simpl in Hle. lia.
Qed.

Lemma length_10_stays (s : string) :
  String.length s = 10%nat -> String.eqb s "" || String.eqb s "all" = false.
Proof.
  intros Hl. destruct (String.eqb_spec s "") as [->|_]; [done|].
  destruct (String.eqb_spec s "all") as [->|_]; done.
Qed.

Lemma length_12_stays (s : string) :
  String.length s = 12%nat -> String.eqb s "" || String.eqb s "all" = false.
Proof.
  intros Hl. destruct (String.eqb_spec s "") as [->|_]; [done|].
  destruct (String.eqb_spec s "all") as [->|_]; done.
Qed.

Lemma resolve_length_10 (now : Z) (rs : list Item) (s : string) :
  String.length s = 10%nat -> resolve now rs (Some s) = Since (bind_string s).
Proof.
  intros Hl. unfold resolve. by rewrite (length_10_stays s Hl), Hl.
Qed.

Lemma resolve_length_12 (now : Z) (rs : list Item) (s : string) :
  String.length s = 12%nat -> resolve now rs (Some s) = Since (time_of_id rs s).
Proof.
  intros Hl. unfold resolve. by rewrite (length_12_stays s Hl), Hl.
Qed.

Lemma queryByTopic_timestamp (topic0 s : string) (rs : list Item) :
  s <> "" -> forallb is_digit (list_ascii_of_string s) = true ->
  queryByTopic topic0 (Since (bind_string s)) rs
  = rule2 topic0 (decimal (list_ascii_of_string s)) rs.
Proof.
  intros Hne Hds.
  assert (numeric_affinity s = SqlInteger (decimal (list_ascii_of_string s))) as Hnum.
  { rewrite <- (string_of_list_ascii_of_string s) at 1.
    apply numeric_affinity_digits; [|done].
    intros Hnil. apply Hne. rewrite <- (string_of_list_ascii_of_string s). by rewrite Hnil. }
  apply filter_ext. intros r. unfold matches, bind_string, time_ge. by rewrite Hnum.
Qed.

(** C5.  With the table in place, a selector of length 10 always runs the
    statement of rule 2 with the selector as its bound, which for a string
    of digits is the messages of the topic with [time >= since]; a selector
    of length 12 always runs the statement of rule 3, the messages of the
    topic from the time of the message with that id on.  Nothing else about
    the string is looked at: in particular not whether it is all digits or
    matches the duration pattern. *)
Theorem length_decides_rule (now : Z) (topic0 s : string) (w : World) (rs : list Item) :
  db w = Some rs ->
  (String.length s = 10%nat ->
     _query now topic0 (Some s) w
     = (w, Returned (queryByTopic topic0 (Since (bind_string s)) rs))
     /\ (forallb is_digit (list_ascii_of_string s) = true ->
         _query now topic0 (Some s) w
         = (w, Returned (rule2 topic0 (decimal (list_ascii_of_string s)) rs))))
  /\ (String.length s = 12%nat ->
        _query now topic0 (Some s) w = (w, Returned (rule3 topic0 s rs))).
Proof.
  intros Hdb. split; intros Hl.
  - rewrite (_query_resolve _ _ _ _ _ Hdb), (resolve_length_10 _ _ _ Hl).
    split; [done|]. intros Hds. rewrite queryByTopic_timestamp; [done| |done].
    by intros ->.
  - rewrite (_query_resolve _ _ _ _ _ Hdb), (resolve_length_12 _ _ _ Hl).
    by rewrite queryByTopic_id.
Qed.

Lemma length_decides_rule_witness :
  let rs := [mkItem "Zk3q0Lm9TtA1" 100 43300 "alerts" (Int 3) "a";
             mkItem "uP4ID5x0fkQh" 200 43400 "alerts" (Int 4) "b"] in
  _query 1000 "alerts" (Some "000000150s") (loaded (Some rs))
  = (loaded (Some rs), Returned (queryByTopic "alerts" (Since (bind_string "000000150s")) rs))
  /\ _query 1000 "alerts" (Some "000000000150") (loaded (Some rs))
     = (loaded (Some rs), Returned (rule3 "alerts" "000000000150" rs)).
Proof.
  split.
  - apply (length_decides_rule 1000 "alerts" "000000150s" (loaded (Some _)) _ eq_refl).
    reflexivity.
  - apply (length_decides_rule 1000 "alerts" "000000000150" (loaded (Some _)) _ eq_refl).
    reflexivity.
Defined.

(** Selectors that read as the other kind, or as a duration, still follow
    their length: ten characters ending in [s] are compared as a timestamp
    (and, being text for SQLite, sort after every time), twelve digits are
    looked up as an id. *)
Example length_10_duration_like :
  let rs := [mkItem "Zk3q0Lm9TtA1" 100 43300 "alerts" (Int 3) "a"] in
  snd (_query 1000 "alerts" (Some "000000950s") (loaded (Some rs))) = Returned []
  /\ snd (_query 1000 "alerts" (Some "950s") (loaded (Some rs))) = Returned rs.
Proof. split; reflexivity. Qed.

Example length_12_timestamp_like :
  let rs := [mkItem "000000000050" 100 43300 "alerts" (Int 3) "a";
             mkItem "uP4ID5x0fkQh" 60 43260 "alerts" (Int 3) "b"] in
  snd (_query 1000 "alerts" (Some "000000000050") (loaded (Some rs)))
  = Returned [mkItem "000000000050" 100 43300 "alerts" (Int 3) "a"].
Proof. reflexivity. Qed.

Lemma rule3_unknown_id (topic0 i : string) (rs : list Item) :
  (forall r, r ∈ rs -> id r <> i) -> rule3 topic0 i rs = [].
Proof.
  intros Hno. unfold rule3.
  destruct (find _ rs) as [m|] eqn:E; [|done].
  apply find_some in E as [Hin Heq]. apply String.eqb_eq in Heq.
  apply list_elem_of_In in Hin. by destruct (Hno m Hin).
Qed.

Lemma resolve_unrecognized (now : Z) (rs : list Item) (s : string) :
  unrecognized s -> resolve now rs (Some s) = NoMatch.
Proof.
  intros (H0 & H1 & H10 & H12 & Hre). unfold resolve.
  apply String.eqb_neq in H0, H1. apply Nat.eqb_neq in H10, H12.
  by rewrite H0, H1, H10, H12, Hre.
Qed.

(** C8.  With the table in place, [_query] returns for every selector and
    changes nothing; a selector that none of the rules recognises gives the
    empty list, and so does one of length 12 that is the id of no stored
    message. *)
Theorem query_never_throws (now : Z) (topic0 : string) (since : option string)
    (w : World) (rs : list Item) :
  db w = Some rs ->
  (exists res, _query now topic0 since w = (w, Returned res))
  /\ (forall s, since = Some s -> unrecognized s ->
        _query now topic0 since w = (w, Returned []))
  /\ (forall s, since = Some s -> String.length s = 12%nat ->
        (forall r, r ∈ rs -> id r <> s) ->
        _query now topic0 since w = (w, Returned [])).
Proof.
  intros Hdb. rewrite (_query_resolve _ _ _ _ _ Hdb). split; [by eexists|]. split.
  - intros s -> Hs. by rewrite (resolve_unrecognized _ _ _ Hs), queryByTopic_NoMatch.
  - intros s -> Hl Hno.
    by rewrite (resolve_length_12 _ _ _ Hl), queryByTopic_id, rule3_unknown_id.
Qed.

Lemma query_never_throws_witness :
  let rs := [mkItem "Zk3q0Lm9TtA1" 100 43300 "alerts" (Int 3) "a"] in
  _query 1000 "alerts" (Some "yesterday") (loaded (Some rs))
  = (loaded (Some rs), Returned []).
Proof.
  destruct (query_never_throws 1000 "alerts" (Some "yesterday")
              (loaded (Some [mkItem "Zk3q0Lm9TtA1" 100 43300 "alerts" (Int 3) "a"]))
              _ eq_refl) as (_ & Hnone & _).
  apply (Hnone "yesterday"); [reflexivity|]. repeat split; done.
Defined.

(** The table exists in every world a request can see: the module runs
    [_remove_expired] while it loads (line 361), which throws on a database
    without the table, and no operation drops it. *)
Lemma first_sweep_needs_table (now : Z) (w w' : World) :
  _remove_expired now w = (w', Returned tt) -> is_Some (db w) /\ is_Some (db w').
Proof.
  unfold _remove_expired, delete_where. destruct (db w) eqn:E; [|done].
  intros [= <-]. split; by eexists.
Qed.

Lemma _save_keeps_table (it : Item) (w : World) : is_Some (db (fst (_save it w))).
Proof.
  unfold _save, create_table_if_not_exists, insert_into. run_M.
  destruct (bind_number (priority it)); try by eexists.
  all: destruct (_ || _); by eexists.
Qed.



(** C6 at the selector "2H".  The pattern of [_query] has no [i] flag, so the
    upper-case arms of its switch are never reached: "2H" matches no rule and
    gives nothing, although the message is 1000 seconds old; "2h" gives it. *)
Theorem query_uppercase_unit_unmatched :
  let rs := [mkItem "Zk3q0Lm9TtA1" 99000 142200 "alerts" (Int 3) "disk full"] in
  _query 100000 "alerts" (Some "2H") (loaded (Some rs)) = (loaded (Some rs), Returned [])
  /\ _query 100000 "alerts" (Some "2h") (loaded (Some rs)) = (loaded (Some rs), Returned rs)
  /\ rule2 "alerts" (100000 - 2 * 3600) rs = rs
  /\ shift_back (Int 100000) "2" "H" = Int (100000 - 2 * 3600).
Proof. repeat split; reflexivity. Qed.

(** ** Publishing *)

Lemma _save_frame (it : Item) (w w1 : World) (out : outcome unit) :
  _save it w = (w1, out) ->
  _sockets w1 = _sockets w /\ sent w1 = sent w
  /\ match out with
     | Returned _ => rows w1 = rows w ++ [it]
     | Thrown _ => rows w1 = rows w
     end.
Proof.
  unfold _save, create_table_if_not_exists, insert_into. run_M.
  destruct (bind_number (priority it)); [by intros [= <- <-]|..];
    (destruct (_ || _); by intros [= <- <-]).
Qed.

Lemma send_all_frame (pl : Payload) (cs : list WebSocket) (w : World) :
  let w' := fold_left (fun w server => send server pl w) cs w in
  db w' = db w /\ _sockets w' = _sockets w
  /\ sent w' = sent w ++ map (fun c => (c, pl)) cs.
Proof.
  revert w. induction cs as [|c cs IH]; intros w; simpl.
  - by rewrite app_nil_r.
  - destruct (IH (send c pl w)) as (-> & -> & ->). simpl.
    by rewrite <- app_assoc.
Qed.

(** [_broadcast] step by step: the insert first; the sends and the answer
    only when the insert returned. *)
Lemma _broadcast_steps (now : Z) (bytes : list Byte.byte) (topic0 : string)
    (p : number) (content0 : string) (w : World) :
  let i := getRandomId bytes in
  let pl := StringifyLn (message_event i now topic0 content0 p) in
  _broadcast now bytes topic0 p content0 w
  = match _save (mkItem i now (now + timeout) topic0 p content0) w with
    | (w1, Returned _) =>
        (fold_left (fun w server => send server pl w) (subscribers topic0 w1) w1,
         Returned (mkResponse 200 [("Content-Type", "application/json")] (JsonBody pl)))
    | (w1, Thrown e) => (w1, Thrown e)
    end.
Proof.
  unfold _broadcast, send_to_topic. run_M. by destruct (_save _ w) as [w1 [[]|e]].
Qed.

Lemma sent_since_app (w w' : World) (new : list (WebSocket * Payload)) :
  sent w' = sent w ++ new -> sent_since w w' = new.
Proof. unfold sent_since. intros ->. by rewrite drop_app_length. Qed.

(** C9.  Whatever [_broadcast] does, a frame goes out only in a world where
    [_save] has returned and the row is in the table; when the insert throws
    nothing is sent and nothing is written; and when it returns the row is
    stored whether or not the topic has a subscriber (with none, nothing is
    sent). *)
Theorem fan_out_only_after_save (now : Z) (bytes : list Byte.byte) (topic0 : string)
    (p : number) (content0 : string) (w w' : World) (out : outcome Response) :
  _broadcast now bytes topic0 p content0 w = (w', out) ->
  let item := mkItem (getRandomId bytes) now (now + timeout) topic0 p content0 in
  (forall client pl, (client, pl) ∈ sent_since w w' ->
     exists w1, _save item w = (w1, Returned tt)
       /\ item ∈ rows w1 /\ sent w1 = sent w /\ rows w' = rows w1)
  /\ (forall e, out = Thrown e ->
        _save item w = (w', Thrown e) /\ sent w' = sent w /\ rows w' = rows w)
  /\ (forall resp, out = Returned resp ->
        rows w' = rows w ++ [item]
        /\ (_sockets w !! topic0 = None -> sent w' = sent w)).
Proof.
  rewrite _broadcast_steps. intros Hrun item.
  destruct (_save _ w) as [w1 [[]|e]] eqn:Hsave;
    destruct (_save_frame _ _ _ _ Hsave) as (Hso & Hse & Hro);
    injection Hrun as <- <-.
  - destruct (send_all_frame
                (StringifyLn (message_event (getRandomId bytes) now topic0 content0 p))
                (subscribers topic0 w1) w1) as (Hdb & _ & Hsent).
    assert (rows (fold_left (fun w server => send server
              (StringifyLn (message_event (getRandomId bytes) now topic0 content0 p)) w)
              (subscribers topic0 w1) w1) = rows w1) as Hrows
      by (unfold rows; by rewrite Hdb).
    split; [|split].
    + intros client pl _. exists w1. repeat split; [|done..].
      fold item in Hro. rewrite Hro. apply list_elem_of_In, in_or_app. right. by left.
    + intros e [=].
    + intros resp _. split; [by rewrite Hrows|].
      intros Hnone. rewrite Hsent, Hse. unfold subscribers. rewrite Hso, Hnone.
      apply app_nil_r.
  - split; [|split].
    + intros client pl Hin. unfold sent_since in Hin. rewrite Hse in Hin.
      rewrite drop_all in Hin. by apply elem_of_nil in Hin.
    + by intros e' [= ->].
    + intros resp [=].
Qed.

Lemma fan_out_only_after_save_witness :
  let w := mkWorld None {[ "alerts" := {[ 7%nat ]} ]} [] in
  let item := mkItem (getRandomId [Byte.x2a]) 1000 (1000 + timeout) "alerts" (Int 5) "triggered" in
  rows (fst (_broadcast 1000 [Byte.x2a] "alerts" (Int 5) "triggered" w)) = rows w ++ [item].
Proof.
  intros w item.
  destruct (fan_out_only_after_save 1000 [Byte.x2a] "alerts" (Int 5) "triggered" w
              _ _ eq_refl) as (_ & _ & Hret).
  eapply Hret. reflexivity.
Defined.

(** ** The wire records *)

Lemma js_strict_eq_3 (p : number) : js_strict_eq p (Int 3) = true <-> p = Int 3.
Proof.
  destruct p as [z|]; simpl; [|done]. rewrite Z.eqb_eq. split; congruence.
Qed.

Lemma priority_spread_field (p : number) : priority_field p (priority_spread p).
Proof.
  unfold priority_field, priority_spread.
  destruct (js_strict_eq p (Int 3)) eqn:E.
  - apply js_strict_eq_3 in E. subst p. done.
  - assert (p <> Int 3) as Hne by (rewrite <- js_strict_eq_3; congruence).
    simpl. split; [split; [done|discriminate]|done].
Qed.

Lemma message_event_field (i : string) (t : Z) (topic0 content0 : string) (p : number) :
  priority_field p (message_event i t topic0 content0 p).
Proof. apply priority_spread_field. Qed.

Lemma query_line_field (r : Item) : priority_field (priority r) (query_line r).
Proof.
  pose proof (priority_spread_field (priority r)) as H.
  unfold priority_field, query_line, priority_spread in *. simpl.
  by destruct (js_strict_eq (priority r) (Int 3)).
Qed.

(** The replay branch of [_fetch] answers with one [query_line] per row. *)
Lemma _fetch_replay_lines (now : Z) (bytes : list Byte.byte) (request : Request)
    (u : Url) (topic0 : string) (ts : list string) (w w' : World)
    (resp : Response) (items : list Item) (lines : list JsonObject) :
  url request = Some u ->
  topics u = Some (topic0 :: ts) ->
  command u = Some "json" ->
  _query now topic0 (since u) w = (w', Returned items) ->
  _fetch now bytes request w = (w', Returned resp) ->
  body resp = NdjsonBody lines ->
  lines = map query_line items.
Proof.
  intros Hu Ht Hc Hq. unfold _fetch. rewrite Hu, Ht, Hc.
  destruct (negb _); [by intros [= <- <-]|].
  rewrite andb_false_r. simpl.
  destruct (String.eqb (method request) "GET"); simpl.
  - run_M. rewrite Hq. intros [= <-]. simpl. by intros [= <-].
  - rewrite andb_false_r. by intros [= <- <-].
Qed.

(** C4.  In every wire record made for a message (the live event, the
    acknowledgment, a line of the replay response) the [priority] field is
    absent exactly when the priority of the message is 3, and otherwise
    present with that priority as its value. *)
Theorem priority_omitted_iff_default (p : number) (o : JsonObject) :
  wire_record p o -> priority_field p o.
Proof.
  intros [now bytes topic0 content0 w w' resp client pl Hrun Hin ->
         |now bytes topic0 content0 w w' resp pl Hrun Hbody ->
         |now bytes request u topic0 ts w w' resp items lines n r
            Hu Ht Hc Hq Hrun Hbody Hr Ho ->].
  - rewrite _broadcast_steps in Hrun.
    destruct (_save _ w) as [w1 [[]|e]] eqn:Hsave; [|done].
    injection Hrun as <- _.
    destruct (send_all_frame
                (StringifyLn (message_event (getRandomId bytes) now topic0 content0 p))
                (subscribers topic0 w1) w1) as (_ & _ & Hsent).
    destruct (_save_frame _ _ _ _ Hsave) as (_ & Hse & _).
    rewrite Hse in Hsent. rewrite (sent_since_app _ _ _ Hsent) in Hin.
    apply list_elem_of_fmap in Hin as (c & [= _ ->] & _).
    apply message_event_field.
  - rewrite _broadcast_steps in Hrun.
    destruct (_save _ w) as [w1 [[]|e]]; [|done].
    injection Hrun as _ <-. simpl in Hbody. injection Hbody as <-.
    apply message_event_field.
  - rewrite (_fetch_replay_lines _ _ _ _ _ _ _ _ _ _ _ Hu Ht Hc Hq Hrun Hbody) in Ho.
    rewrite list_lookup_fmap, Hr in Ho. injection Ho as <-.
    apply query_line_field.
Qed.

Lemma priority_omitted_iff_default_witness :
  priority_field (Int 5)
    (message_event (getRandomId [Byte.x2a]) 1000 "alerts" "triggered" (Int 5))
  /\ priority_field (Int 3)
       (query_line (mkItem "Zk3q0Lm9TtA1" 100 43300 "alerts" (Int 3) "disk full")).
Proof.
  split; apply priority_omitted_iff_default.
  - eapply (live_event _ _ 1000 [Byte.x2a] "alerts" "triggered"
              (mkWorld None {[ "alerts" := {[ 7%nat ]} ]} []) _ _ 7%nat
              (StringifyLn (message_event (getRandomId [Byte.x2a]) 1000 "alerts"
                              "triggered" (Int 5)))).
    + reflexivity.
    + apply list_elem_of_In. left. reflexivity.
    + reflexivity.
  - eapply (replay_line _ _ 1000 []
              (mkRequest (Some (mkUrl (Some ["alerts"]) (Some "json") None)) "GET" Undefined "")
              _ "alerts" [] (loaded (Some [mkItem "Zk3q0Lm9TtA1" 100 43300 "alerts" (Int 3) "disk full"]))
              _ _ _ _ 0%nat).
    all: reflexivity.
Defined.

(** ** The priority header *)

Lemma _fetch_publish (now : Z) (bytes : list Byte.byte) (request : Request)
    (topic0 : string) :
  publishes request topic0 ->
  _fetch now bytes request
  = let priority0 := parseInt (js_or (first_value (x_priority request)) "3") in
    if js_lt priority0 (Int 1) || js_gt priority0 (Int 5) then mret invalid_priority
    else _broadcast now bytes topic0 priority0 (js_or (Some (content request)) "triggered").
Proof.
  intros (u & ts & Hu & Ht & Hre & Hm & Hc). unfold _fetch.
  rewrite Hu, Ht, Hre, Hc. simpl.
  assert (bool_decide (command u = Some "auth") = false
          /\ bool_decide (command u = Some "json") = false) as [-> ->].
  { destruct (command u) as [c|]; [|done]. simpl in Hc. apply String.eqb_eq in Hc as ->. done. }
  rewrite !andb_false_r. by destruct Hm as [-> | ->].
Qed.

(** X7.  An integer priority outside 1..5 is answered with the 40007 error and the
    world is left alone. *)
Lemma publish_out_of_range (now : Z) (bytes : list Byte.byte) (request : Request)
    (topic0 : string) (z : Z) (w : World) :
  publishes request topic0 ->
  parseInt (js_or (first_value (x_priority request)) "3") = Int z ->
  (z < 1 \/ 5 < z)%Z ->
  _fetch now bytes request w = (w, Returned invalid_priority).
Proof.
  intros Hp Hz Hr. rewrite (_fetch_publish _ _ _ _ Hp). simpl. rewrite Hz.
  unfold js_gt, js_lt.
  destruct (Z.ltb_spec z 1), (Z.ltb_spec 5 z); simpl; done || lia.
Qed.

(** Without the header the priority is 3 and the publish goes on. *)
Lemma publish_default_priority (now : Z) (bytes : list Byte.byte) (request : Request)
    (topic0 : string) (w : World) :
  publishes request topic0 ->
  x_priority request = Undefined ->
  _fetch now bytes request w
  = _broadcast now bytes topic0 (Int 3) (js_or (Some (content request)) "triggered") w.
Proof.
  intros Hp Hx. rewrite (_fetch_publish _ _ _ _ Hp), Hx. done.
Qed.

(** C7 at the header [X-Priority: high].  [parseInt] gives [NaN], which is
    neither below 1 nor above 5, so the request is not answered with the
    40007 error: [_broadcast] runs, the INSERT is attempted with a null
    priority and throws.  No row is written and nothing is sent, but the
    handler ends in an exception. *)
Theorem publish_priority_not_a_number :
  let request :=
    mkRequest (Some (mkUrl (Some ["alerts"]) None None)) "POST" (One "high") "disk full" in
  let w := mkWorld (Some []) {[ "alerts" := {[ 7%nat ]} ]} [] in
  publishes request "alerts"
  /\ parseInt "high" = NaN
  /\ js_lt NaN (Int 1) || js_gt NaN (Int 5) = false
  /\ _fetch 1000 [Byte.x2a] request w = (w, Thrown not_null_constraint)
  /\ _fetch 1000 [Byte.x2a] request w <> (w, Returned invalid_priority).
Proof.
  repeat split; try done.
  exists (mkUrl (Some ["alerts"]) None None), []. repeat split; auto.
Qed.

(** ** The registry *)

Lemma add_client_lookup (client : WebSocket) (m : gmap string (gset WebSocket))
    (topic0 t : string) :
  add_client client m topic0 !! t
  = if decide (topic0 = t) then Some (default ∅ (m !! topic0) ∪ {[client]}) else m !! t.
Proof.
  unfold add_client. destruct (m !! topic0) as [s|] eqn:E.
  - rewrite lookup_alter. case_decide; [subst; by rewrite E | done].
  - rewrite lookup_alter. case_decide.
    + subst. by rewrite lookup_insert_eq.
    + by rewrite lookup_insert_ne.
Qed.

Lemma add_client_ok (client : WebSocket) (m : gmap string (gset WebSocket))
    (topic0 : string) :
  registry_ok m -> registry_ok (add_client client m topic0).
Proof.
  intros Hm t s. rewrite add_client_lookup. case_decide.
  - intros [= <-] Hempty. apply (not_elem_of_empty (C:=gset nat) client).
    rewrite <- Hempty. by apply elem_of_union_r, elem_of_singleton.
  - apply Hm.
Qed.

Lemma add_clients_ok (client : WebSocket) (ts : list string)
    (m : gmap string (gset WebSocket)) :
  registry_ok m -> registry_ok (fold_left (add_client client) ts m).
Proof.
  revert m. induction ts as [|t ts IH]; intros m Hm; simpl; [done|].
  by apply IH, add_client_ok.
Qed.

(** Every set the handler touches holds the client afterwards, and the
    untouched topics keep their sets. *)
Lemma add_clients_lookup (client : WebSocket) (ts : list string)
    (m : gmap string (gset WebSocket)) (t : string) :
  (t ∈ ts -> exists s, fold_left (add_client client) ts m !! t = Some s /\ client ∈ s)
  /\ (t ∉ ts -> fold_left (add_client client) ts m !! t = m !! t).
Proof.
  revert m. induction ts as [|t0 ts IH]; intros m; simpl.
  - split; [by intros ?%elem_of_nil|done].
  - destruct (IH (add_client client m t0)) as [IHin IHout]. split.
    + intros Hin. destruct (decide (t ∈ ts)) as [Hts|Hts]; [by apply IHin|].
      apply elem_of_cons in Hin as [->|]; [|done].
      rewrite (IHout Hts), add_client_lookup. rewrite decide_True by done.
      eexists. split; [done|]. by apply elem_of_union_r, elem_of_singleton.
    + intros Hout. apply not_elem_of_cons in Hout as [Hne Hts].
      rewrite (IHout Hts), add_client_lookup. by rewrite decide_False.
Qed.

Lemma _close_lookup (server : WebSocket) (m : gmap string (gset WebSocket)) (t : string) :
  _close server m !! t
  = s ← m !! t; (if bool_decide (size (s ∖ {[server]}) = 0%nat) then None
                 else Some (s ∖ {[server]})).
Proof. unfold _close. by rewrite lookup_omap. Qed.

Lemma _close_left (server : WebSocket) (m : gmap string (gset WebSocket))
    (t : string) (s : gset WebSocket) :
  _close server m !! t = Some s -> s <> ∅ /\ server ∉ s.
Proof.
  rewrite _close_lookup. destruct (m !! t) as [s0|]; [|done]. simpl.
  case_bool_decide as Hsize; [done|]. intros [= <-].
  split; [|by intros [_ Hn]%elem_of_difference; apply Hn, elem_of_singleton].
  intros Hempty. apply Hsize. rewrite Hempty. apply size_empty.
Qed.

Lemma _close_ok (server : WebSocket) (m : gmap string (gset WebSocket)) :
  registry_ok (_close server m).
Proof. intros t s Hs. by apply _close_left in Hs as [? _]. Qed.

Lemma _close_idempotent (server : WebSocket) (m : gmap string (gset WebSocket)) :
  _close server (_close server m) = _close server m.
Proof.
  apply map_eq. intros t. rewrite (_close_lookup server (_close server m)).
  destruct (_close server m !! t) as [s|] eqn:E; [|done]. simpl.
  destruct (_close_left _ _ _ _ E) as [Hne Hnot].
  assert (s ∖ {[server]} = s) as -> by by apply difference_disjoint_L, disjoint_singleton_r.
  rewrite bool_decide_eq_false_2; [done|].
  intros Hsize. by apply size_empty_iff, leibniz_equiv in Hsize.
Qed.

(** Requests and sweeps leave the registry alone. *)
Lemma select_where_frame (cond : list Item -> Item -> bool) (w : World) :
  fst (select_where cond w) = w.
Proof. unfold select_where. by destruct (db w). Qed.

Lemma _query_frame (now : Z) (topic0 : string) (since : option string) (w : World) :
  fst (_query now topic0 since w) = w.
Proof.
  unfold _query. repeat (case_match; try apply select_where_frame); done.
Qed.

Lemma _broadcast_sockets (now : Z) (bytes : list Byte.byte) (topic0 : string)
    (p : number) (content0 : string) (w : World) :
  _sockets (fst (_broadcast now bytes topic0 p content0 w)) = _sockets w.
Proof.
  rewrite _broadcast_steps.
  destruct (_save _ w) as [w1 [[]|e]] eqn:Hsave;
    destruct (_save_frame _ _ _ _ Hsave) as (Hso & _); simpl; [|done].
  by destruct (send_all_frame
                 (StringifyLn (message_event (getRandomId bytes) now topic0 content0 p))
                 (subscribers topic0 w1) w1) as (_ & -> & _).
Qed.

Lemma _fetch_sockets (now : Z) (bytes : list Byte.byte) (request : Request) (w : World) :
  _sockets (fst (_fetch now bytes request w)) = _sockets w.
Proof.
  unfold _fetch. repeat case_match; try done.
  - run_M. pose proof (_query_frame now s (since u) w) as Hq.
    destruct (_query now s (since u) w) as [w1 [items|e]]; simpl in *; by subst.
  - apply _broadcast_sockets.
Qed.

Lemma _remove_expired_sockets (now : Z) (w : World) :
  _sockets (fst (_remove_expired now w)) = _sockets w.
Proof. unfold _remove_expired, delete_where. by destruct (db w). Qed.

Lemma connection_sockets (now : Z) (bytes : list Byte.byte) (client : WebSocket)
    (topics0 : option (list string)) (w : World) :
  _sockets (connection now bytes client topics0 w)
  = match topics0 with
    | Some ts =>
        if forallb topic_regex ts then fold_left (add_client client) ts (_sockets w)
        else _sockets w
    | None => _sockets w
    end.
Proof.
  unfold connection. destruct topics0 as [[|t ts]|]; [done| |done].
  by destruct (forallb topic_regex (t :: ts)).
Qed.

Lemma run_ok (w : World) (op : Operation) :
  registry_ok (_sockets w) -> registry_ok (_sockets (run w op)).
Proof.
  intros Hw. destruct op as [now bytes client ts|client|now bytes request|now]; simpl.
  - rewrite connection_sockets. repeat case_match; try done. by apply add_clients_ok.
  - apply _close_ok.
  - by rewrite _fetch_sockets.
  - by rewrite _remove_expired_sockets.
Qed.

Lemma reachable_ok (ops : list Operation) (w : World) :
  registry_ok (_sockets w) -> registry_ok (_sockets (fold_left run ops w)).
Proof.
  revert w. induction ops as [|op ops IH]; intros w Hw; simpl; [done|].
  by apply IH, run_ok.
Qed.

(** C10.  In every world the broker reaches from its start, whatever the
    operations, no topic of the registry has an empty set.  A connection
    leaves the client in the set of each of its topics, so an entry it
    creates is not empty; [_close] leaves no empty set and no trace of the
    client; and closing twice is closing once. *)
Theorem registry_has_no_empty_set (d : option (list Item)) (ops : list Operation)
    (client : WebSocket) :
  let w := fold_left run ops (loaded d) in
  registry_ok (_sockets w)
  /\ (forall now bytes ts t,
        _sockets w !! t = None ->
        is_Some (_sockets (connection now bytes client ts w) !! t) ->
        exists s, _sockets (connection now bytes client ts w) !! t = Some s /\ client ∈ s)
  /\ (forall t s, _sockets (on_close client w) !! t = Some s -> s <> ∅ /\ client ∉ s)
  /\ on_close client (on_close client w) = on_close client w
  /\ (forall m, _close client (_close client m) = _close client m).
Proof.
  intros w. split; [|split; [|split; [|split]]].
  - apply reachable_ok. intros t s Hs. simpl in Hs. by rewrite lookup_empty in Hs.
  - intros now bytes ts t Hnone [s Hs]. exists s. split; [done|]. revert Hs.
    rewrite connection_sockets. repeat case_match; try congruence.
    match goal with |- fold_left _ ?l _ !! _ = _ -> _ => set (tl := l) end.
    destruct (add_clients_lookup client tl (_sockets w) t) as [Hin Hout].
    destruct (decide (t ∈ tl)) as [Ht|Ht].
    + destruct (Hin Ht) as (s' & -> & Hc). by intros [= <-].
    + rewrite (Hout Ht). congruence.
  - intros t s. simpl. apply _close_left.
  - unfold on_close. simpl. by rewrite _close_idempotent.
  - apply _close_idempotent.
Qed.

(** ** The table and the clock *)

Lemma connection_db (now : Z) (bytes : list Byte.byte) (client : WebSocket)
    (topics0 : option (list string)) (w : World) :
  db (connection now bytes client topics0 w) = db w.
Proof. unfold connection. by repeat case_match. Qed.

Lemma _broadcast_keeps_table (now : Z) (bytes : list Byte.byte) (topic0 : string)
    (p : number) (content0 : string) (w : World) :
  is_Some (db (fst (_broadcast now bytes topic0 p content0 w))).
Proof.
  rewrite _broadcast_steps.
  pose proof (_save_keeps_table
                (mkItem (getRandomId bytes) now (now + timeout) topic0 p content0) w) as Hs.
  destruct (_save _ w) as [w1 [[]|e]]; simpl in *; [|done].
  by destruct (send_all_frame
                 (StringifyLn (message_event (getRandomId bytes) now topic0 content0 p))
                 (subscribers topic0 w1) w1) as (-> & _).
Qed.

Lemma run_keeps_table (w : World) (op : Operation) :
  is_Some (db w) -> is_Some (db (run w op)).
Proof.
  intros Hw. destruct op as [now bytes client ts|client|now bytes request|now]; simpl.
  - by rewrite connection_db.
  - done.
  - unfold _fetch. repeat case_match; try done.
    + run_M. pose proof (_query_frame now s (since u) w) as Hq.
      destruct (_query now s (since u) w) as [w1 [items|e]]; simpl in *; by subst.
    + apply _broadcast_keeps_table.
  - unfold _remove_expired, delete_where. destruct (db w); [by eexists | done].
Qed.

(** X24.  Once the sweep of line 361 has returned, every later query returns. *)
Lemma serving_query_returns (d : option (list Item)) (now0 : Z) (w0 : World)
    (ops : list Operation) (now : Z) (topic0 : string) (since : option string) :
  _remove_expired now0 (loaded d) = (w0, Returned tt) ->
  exists res,
    _query now topic0 since (fold_left run ops w0)
    = (fold_left run ops w0, Returned res).
Proof.
  intros [_ Hw0]%first_sweep_needs_table.
  assert (is_Some (db (fold_left run ops w0))) as [rs Hrs].
  { revert w0 Hw0. induction ops as [|op ops IH]; intros w0 Hw0; simpl; [done|].
    by apply IH, run_keeps_table. }
  eexists. by apply _query_resolve.
Qed.

(** Rows are stored in ascending [time] as long as each publish reads a
    clock that has not gone back; the sweep keeps the order. *)
Lemma _save_ascending (it : Item) (w w1 : World) (out : outcome unit) :
  _save it w = (w1, out) ->
  ascending_time (rows w) ->
  (forall r, r ∈ rows w -> (time r <= time it)%Z) ->
  ascending_time (rows w1).
Proof.
  intros Hsave Hasc Hnow. destruct (_save_frame _ _ _ _ Hsave) as (_ & _ & Hrows).
  destruct out; rewrite Hrows; [|done].
  apply StronglySorted_app_2.
  - intros r1 r2 H1 ->%list_elem_of_singleton. by apply Hnow.
  - exact Hasc.
  - repeat constructor.
Qed.


(** ** Message ids *)

Lemma length_append (a b : string) :
  String.length (a ++ b)%string = (String.length a + String.length b)%nat.
Proof. induction a as [|c a IH]; simpl; [done|]. by rewrite IH. Qed.

Lemma slice0_all (s : string) : slice0 (String.length s) s = s.
Proof. induction s as [|c s IH]; simpl; [done|]. by rewrite IH. Qed.

(** [getRandomId] gives one character per random byte: 12 by default. *)
Lemma getRandomId_length (bytes : list Byte.byte) :
  String.length (getRandomId bytes) = List.length bytes.
Proof.
  unfold getRandomId.
  assert (forall acc,
            String.length
              (fold_left (fun result byte => (result ++ String (alphabet_at byte) "")%string)
                 bytes acc)
            = (String.length acc + List.length bytes)%nat) as Hlen.
  { induction bytes as [|b bytes IH]; intros acc; simpl; [lia|].
    rewrite IH, length_append. simpl. lia. }
  specialize (Hlen ""%string). simpl in Hlen. rewrite <- Hlen at 1.
  by rewrite slice0_all.
Qed.

(** ** Stored ids are unique *)

Lemma _save_returned_fresh (it : Item) (w w1 : World) (u : unit) :
  _save it w = (w1, Returned u) -> id_present it w = false.
Proof.
  unfold id_present, _save, create_table_if_not_exists, insert_into. run_M.
  destruct (bind_number (priority it)); try done;
    (destruct (existsb (same_id it) (rows w)); [done|by intros _]).
Qed.

Lemma fresh_id_not_stored (it : Item) (rs : list Item) :
  existsb (same_id it) rs = false -> id it ∉ map id rs.
Proof.
  intros Hf Hin. apply list_elem_of_fmap in Hin as (r & Hid & Hr).
  assert (existsb (same_id it) rs = true) as Ht; [|congruence].
  apply existsb_exists. exists r. split; [by apply list_elem_of_In|].
  unfold same_id. rewrite Hid. apply String.eqb_refl.
Qed.

Lemma _save_unique_ids (it : Item) (w w1 : World) (out : outcome unit) :
  _save it w = (w1, out) ->
  NoDup (map id (rows w)) -> NoDup (map id (rows w1)).
Proof.
  intros Hsave Hnd. destruct (_save_frame _ _ _ _ Hsave) as (_ & _ & Hrows).
  destruct out as [u|e]; rewrite Hrows; [|done].
  apply _save_returned_fresh in Hsave. rewrite map_app. simpl.
  apply NoDup_app. split; [done|]. split; [|apply NoDup_singleton].
  intros i Hi ->%list_elem_of_singleton.
  by apply (fresh_id_not_stored it (rows w)).
Qed.

Lemma _remove_expired_unique_ids (now : Z) (w : World) :
  NoDup (map id (rows w)) -> NoDup (map id (rows (fst (_remove_expired now w)))).
Proof.
  intros Hnd. unfold _remove_expired, delete_where.
  destruct (db w) as [rs|] eqn:E; simpl; [|done].
  unfold rows in Hnd. rewrite E in Hnd. simpl in Hnd.
  eapply sublist_NoDup; [exact Hnd|apply (fmap_sublist id), filter_sublist].
Qed.

(** What a request does to the table: nothing, or one [_save] (followed by
    sends, which do not touch it). *)
Lemma _fetch_rows (now : Z) (bytes : list Byte.byte) (request : Request) (w : World) :
  db (fst (_fetch now bytes request w)) = db w
  \/ exists it out, db (fst (_fetch now bytes request w)) = db (fst (_save it w))
                    /\ _save it w = (fst (_save it w), out).
Proof.
  unfold _fetch. repeat case_match; try (by left).
  - left. run_M. pose proof (_query_frame now s (since u) w) as Hq.
    destruct (_query now s (since u) w) as [w1 [items|e]]; simpl in *; by subst.
  - right. rewrite _broadcast_steps.
    match goal with |- context [_save ?i w] => exists i end.
    destruct (_save _ w) as [w1 [[]|e]]; simpl; eexists; (split; [|done]); [|done].
    by destruct (send_all_frame
                   (StringifyLn (message_event (getRandomId bytes) now s (js_or (Some (content request)) "triggered")
                                   (parseInt (js_or (first_value (x_priority request)) "3"))))
                   (subscribers s w1) w1) as (-> & _).
Qed.

(** No two stored rows share an id, hence none share an [(id, topic)] pair,
    in every world reached from a table with that property. *)
Lemma run_unique_ids (w : World) (op : Operation) :
  NoDup (map id (rows w)) -> NoDup (map id (rows (run w op))).
Proof.
  intros Hw. destruct op as [now bytes client ts|client|now bytes request|now]; simpl.
  - unfold rows. by rewrite connection_db.
  - done.
  - destruct (_fetch_rows now bytes request w) as [Hsame|(it & out & Hdb & Hsave)].
    + unfold rows in *. by rewrite Hsame.
    + unfold rows at 1. rewrite Hdb. by apply (_save_unique_ids it w _ out).
  - by apply _remove_expired_unique_ids.
Qed.

(** * Further properties *)

(** ** What a publish does *)

Lemma table_rows (w : World) : is_Some (db w) -> db w = Some (rows w).
Proof. unfold rows. by intros [rs ->]. Qed.

Lemma valid_priority_passes (p : Z) :
  (1 <= p <= 5)%Z -> js_lt (Int p) (Int 1) || js_gt (Int p) (Int 5) = false.
Proof.
  intros Hp. unfold js_gt, js_lt.
  destruct (Z.ltb_spec p 1), (Z.ltb_spec 5 p); simpl; done || lia.
Qed.

Lemma js_or_not_empty (a : option string) (b : string) : b <> "" -> js_or a b <> "".
Proof.
  intros Hb. unfold js_or, js_not. destruct a as [s|]; [|done].
  destruct (String.eqb_spec s ""); done.
Qed.

Lemma publishes_valid_topic (request : Request) (topic0 : string) :
  publishes request topic0 -> topic_regex topic0 = true.
Proof.
  intros (u & ts & _ & _ & Hre & _). simpl in Hre. by apply andb_true_iff in Hre as [? _].
Qed.

Lemma _broadcast_returned (now : Z) (bytes : list Byte.byte) (topic0 : string)
    (p : number) (content0 : string) (w w' : World) (resp : Response) :
  _broadcast now bytes topic0 p content0 w = (w', Returned resp) ->
  let pl := StringifyLn (message_event (getRandomId bytes) now topic0 content0 p) in
  resp = mkResponse 200 [("Content-Type", "application/json")] (JsonBody pl)
  /\ db w' = Some (rows w ++ [new_item now bytes topic0 p content0])
  /\ _sockets w' = _sockets w
  /\ sent w' = sent w ++ map (fun c => (c, pl)) (subscribers topic0 w)
  /\ id_present (new_item now bytes topic0 p content0) w = false
  /\ bind_number p <> SqlNull.
Proof.
  rewrite _broadcast_steps. intros Hrun pl.
  destruct (_save _ w) as [w1 [[]|e]] eqn:Hsave; [|done].
  destruct (_save_frame _ _ _ _ Hsave) as (Hso & Hse & Hro).
  pose proof (_save_keeps_table (mkItem (getRandomId bytes) now (now + timeout) topic0 p content0) w) as Ht.
  rewrite Hsave in Ht. simpl in Ht. apply table_rows in Ht. rewrite Hro in Ht.
  destruct (send_all_frame pl (subscribers topic0 w1) w1) as (Hdb & Hsock & Hsent).
  injection Hrun as <- <-. fold pl. split; [done|].
  rewrite Hdb, Hsock, Hsent, Hso, Hse. unfold subscribers at 1. rewrite Hso.
  repeat split; try done.
  - by apply _save_returned_fresh in Hsave.
  - intros Hnull. unfold _save, create_table_if_not_exists, insert_into in Hsave.
    run_M. by rewrite Hnull in Hsave.
Qed.

(** X1.  A publish with a priority from 1 to 5 (3 without the header) and an
    id that is not stored is answered with status 200 and the message event,
    and appends exactly one row: the id drawn, [time] the clock, [expires]
    43200 seconds later, the first topic of the path, the priority, and the
    body, or "triggered" for an empty body.  The registry is not touched. *)
Theorem publish_appends_row (now : Z) (bytes : list Byte.byte) (request : Request)
    (topic0 : string) (p : Z) (w : World) :
  publishes request topic0 ->
  parseInt (js_or (first_value (x_priority request)) "3") = Int p ->
  (1 <= p <= 5)%Z ->
  let text := if String.eqb (content request) "" then "triggered" else content request in
  let item := mkItem (getRandomId bytes) now (now + 43200) topic0 (Int p) text in
  id_present item w = false ->
  exists w',
    _fetch now bytes request w
    = (w', Returned (mkResponse 200 [("Content-Type", "application/json")]
                       (JsonBody (StringifyLn
                          (message_event (getRandomId bytes) now topic0 text (Int p))))))
    /\ db w' = Some (rows w ++ [item])
    /\ _sockets w' = _sockets w
    /\ published_row item.
Proof.
  intros Hpub Hp Hrange text item Hfresh.
  rewrite (_fetch_publish _ _ _ _ Hpub). cbn zeta. rewrite Hp, (valid_priority_passes _ Hrange).
  assert (js_or (Some (content request)) "triggered" = text) as ->.
  { unfold js_or, js_not, text. by destruct (String.eqb (content request) ""). }
  rewrite _broadcast_steps.
  assert (fully_populated item) as Hfp by done.
  change (mkItem (getRandomId bytes) now (now + timeout) topic0 (Int p) text) with item.
  rewrite (_save_fresh item w Hfp Hfresh).
  destruct (send_all_frame
              (StringifyLn (message_event (getRandomId bytes) now topic0 text (Int p)))
              (subscribers topic0 (set_db (Some (rows w ++ [item])) w))
              (set_db (Some (rows w ++ [item])) w)) as (Hdb & Hsock & _).
  eexists. split; [reflexivity|]. rewrite Hdb, Hsock. repeat split; try done.
  - by exists p.
  - unfold item, text. simpl. destruct (String.eqb_spec (content request) ""); done.
  - by apply (publishes_valid_topic request).
Qed.

Lemma publish_appends_row_witness :
  exists w',
    fst (_fetch 1000 [Byte.x2a]
           (mkRequest (Some (mkUrl (Some ["alerts"; "ops"]) None None)) "PUT" Undefined "")
           (loaded None)) = w'
    /\ rows w' = [mkItem (getRandomId [Byte.x2a]) 1000 44200 "alerts" (Int 3) "triggered"].
Proof.
  destruct (publish_appends_row 1000 [Byte.x2a]
              (mkRequest (Some (mkUrl (Some ["alerts"; "ops"]) None None)) "PUT" Undefined "")
              "alerts" 3 (loaded None)) as (w' & Hrun & Hdb & _).
  - exists (mkUrl (Some ["alerts"; "ops"]) None None), ["ops"]. repeat split; auto.
  - reflexivity.
  - lia.
  - reflexivity.
  - exists w'. rewrite Hrun. split; [reflexivity|]. unfold rows. by rewrite Hdb.
Defined.



(** X3.  A publish whose drawn id is already stored throws the UNIQUE
    violation: the world is exactly as before, no row and no frame. *)
Theorem publish_stored_id_throws (now : Z) (bytes : list Byte.byte) (request : Request)
    (topic0 : string) (p : Z) (w : World) :
  publishes request topic0 ->
  parseInt (js_or (first_value (x_priority request)) "3") = Int p ->
  (1 <= p <= 5)%Z ->
  (exists r, r ∈ rows w /\ id r = getRandomId bytes) ->
  _fetch now bytes request w = (w, Thrown unique_constraint).
Proof.
  intros Hpub Hp Hrange (r & Hr & Hid).
  rewrite (_fetch_publish _ _ _ _ Hpub). cbn zeta. rewrite Hp, (valid_priority_passes _ Hrange).
  rewrite _broadcast_steps. rewrite _save_taken; [done|done|].
  apply existsb_exists. exists r. split; [by apply list_elem_of_In|].
  unfold same_id. simpl. rewrite Hid. apply String.eqb_refl.
Qed.

Lemma publish_stored_id_throws_witness :
  let w := mkWorld (Some [mkItem (getRandomId [Byte.x2a]) 900 44100 "ops" (Int 3) "a"])
             {[ "alerts" := {[ 7%nat ]} ]} [] in
  _fetch 1000 [Byte.x2a]
    (mkRequest (Some (mkUrl (Some ["alerts"]) None None)) "POST" (One "4") "b") w
  = (w, Thrown unique_constraint).
Proof.
  intros w.
  apply (publish_stored_id_throws 1000 [Byte.x2a]
           (mkRequest (Some (mkUrl (Some ["alerts"]) None None)) "POST" (One "4") "b")
           "alerts" 4 w).
  - exists (mkUrl (Some ["alerts"]) None None), []. repeat split; auto.
  - reflexivity.
  - lia.
  - eexists. split; [apply list_elem_of_In; left; reflexivity | reflexivity].
Defined.

(** What a request can do to the world: nothing to the rows and the frames,
    or one published row at the end of the table and the frames of its
    fan-out.  The registry stays as it is. *)
Lemma _fetch_effect (now : Z) (bytes : list Byte.byte) (request : Request) (w : World) :
  _sockets (fst (_fetch now bytes request w)) = _sockets w
  /\ ((rows (fst (_fetch now bytes request w)) = rows w
       /\ sent (fst (_fetch now bytes request w)) = sent w)
      \/ (exists item resp,
            snd (_fetch now bytes request w) = Returned resp
            /\ published_row item /\ time item = now
            /\ id_present item w = false
            /\ rows (fst (_fetch now bytes request w)) = rows w ++ [item])).
Proof.
  split; [apply _fetch_sockets|].
  unfold _fetch. repeat case_match; try (by left).
  - left. run_M. pose proof (_query_frame now s (since u) w) as Hq.
    destruct (_query now s (since u) w) as [w1 [items|e]]; simpl in *; by subst.
  - destruct (_broadcast now bytes s _ _ w) as [w' [resp|e]] eqn:Hrun.
    + right. destruct (_broadcast_returned _ _ _ _ _ _ _ _ Hrun) as (_ & Hdb & _ & _ & Hid & Hnn).
      match type of Hid with id_present ?it _ = _ => exists it, resp end.
      split; [done|]. split; [|split; [done|split; [exact Hid|]]].
      * unfold published_row, new_item. simpl. split; [done|]. split; [|split].
        -- destruct (parseInt _) as [p|] eqn:Hp; [|done]. exists p. split; [done|].
           match goal with H : _ || _ = false |- _ => rename H into Hr end.
           unfold js_gt, js_lt in Hr. apply orb_false_iff in Hr as [Hlo Hhi].
           apply Z.ltb_ge in Hlo, Hhi. lia.
        -- by apply js_or_not_empty.
        -- match goal with H : negb (forallb _ _) = false |- _ => rename H into Hre end.
           apply negb_false_iff in Hre. simpl in Hre. by apply andb_true_iff in Hre as [? _].
      * simpl. unfold rows at 1. by rewrite Hdb.
    + left. simpl. rewrite _broadcast_steps in Hrun.
      destruct (_save _ w) as [w1 [[]|e']] eqn:Hsave; [done|].
      destruct (_save_frame _ _ _ _ Hsave) as (_ & Hse & Hro). by injection Hrun as <- _.
Qed.

(** X4.  A request that ends in an exception has written no row and sent no
    frame, and the registry is as before: there is no partial publish. *)
Theorem thrown_request_changes_nothing (now : Z) (bytes : list Byte.byte)
    (request : Request) (w w' : World) (e : SQLiteError) :
  _fetch now bytes request w = (w', Thrown e) ->
  rows w' = rows w /\ sent w' = sent w /\ _sockets w' = _sockets w.
Proof.
  intros Hrun. destruct (_fetch_effect now bytes request w) as [Hso Heff].
  rewrite Hrun in Hso, Heff. simpl in *.
  destruct Heff as [[Hro Hse]|(item & resp & Hout & _)]; done.
Qed.

Lemma thrown_request_changes_nothing_witness :
  let w := mkWorld None {[ "alerts" := {[ 7%nat ]} ]} [] in
  rows (fst (_fetch 1000 [Byte.x2a]
               (mkRequest (Some (mkUrl (Some ["alerts"]) None None)) "POST" (One "urgent") "b") w))
  = rows w.
Proof.
  intros w.
  apply (thrown_request_changes_nothing 1000 [Byte.x2a]
           (mkRequest (Some (mkUrl (Some ["alerts"]) None None)) "POST" (One "urgent") "b")
           w _ not_null_constraint eq_refl).
Defined.

(** X5.  Only POST and PUT change anything: a request with another method leaves
    the table, the registry and the frames sent exactly as they were, and
    with the table in place it is always answered, never thrown. *)
Theorem other_methods_read_only (now : Z) (bytes : list Byte.byte) (request : Request)
    (w : World) :
  method request <> "POST" -> method request <> "PUT" ->
  fst (_fetch now bytes request w) = w
  /\ (is_Some (db w) -> exists resp, _fetch now bytes request w = (w, Returned resp)).
Proof.
  intros Hpost Hput. apply String.eqb_neq in Hpost, Hput.
  unfold _fetch. rewrite Hpost, Hput. simpl.
  repeat case_match; try (split; [done|by eexists]).
  run_M. split.
  - pose proof (_query_frame now s (since u) w) as Hq.
    destruct (_query now s (since u) w) as [w1 [items|e]]; simpl in *; by subst.
  - intros Ht. apply table_rows in Ht. rewrite (_query_resolve _ _ _ _ _ Ht). by eexists.
Qed.

Lemma other_methods_read_only_witness :
  let w := mkWorld (Some [mkItem "Zk3q0Lm9TtA1" 100 43300 "alerts" (Int 3) "a"])
             {[ "alerts" := {[ 7%nat ]} ]} [] in
  fst (_fetch 1000 [Byte.x2a]
         (mkRequest (Some (mkUrl (Some ["alerts"]) (Some "json") (Some "all"))) "GET" Undefined "") w)
  = w.
Proof.
  intros w.
  apply (other_methods_read_only 1000 [Byte.x2a]
           (mkRequest (Some (mkUrl (Some ["alerts"]) (Some "json") (Some "all"))) "GET" Undefined "") w);
    discriminate.
Defined.

(** X6.  A priority header that [parseInt] cannot read (no digit after optional
    whitespace and sign) passes the range check as [NaN]; the insert is then
    refused for the null priority.  The request throws; no row is written
    and no frame is sent. *)
Theorem publish_unreadable_priority_throws (now : Z) (bytes : list Byte.byte)
    (request : Request) (topic0 : string) (w : World) :
  publishes request topic0 ->
  parseInt (js_or (first_value (x_priority request)) "3") = NaN ->
  _fetch now bytes request w
  = (set_db (Some (rows w)) w, Thrown not_null_constraint).
Proof.
  intros Hpub Hp. rewrite (_fetch_publish _ _ _ _ Hpub). cbn zeta. rewrite Hp. simpl.
  rewrite _broadcast_steps.
  unfold _save, create_table_if_not_exists, insert_into. run_M. done.
Qed.

Lemma publish_unreadable_priority_throws_witness :
  let w := mkWorld (Some []) {[ "alerts" := {[ 7%nat ]} ]} [] in
  _fetch 1000 [Byte.x2a]
    (mkRequest (Some (mkUrl (Some ["alerts"]) None None)) "POST" (Many ["max"; "2"]) "b") w
  = (w, Thrown not_null_constraint).
Proof.
  intros w.
  apply (publish_unreadable_priority_throws 1000 [Byte.x2a]
           (mkRequest (Some (mkUrl (Some ["alerts"]) None None)) "POST" (Many ["max"; "2"]) "b")
           "alerts" w).
  - exists (mkUrl (Some ["alerts"]) None None), []. repeat split; auto.
  - reflexivity.
Defined.

Lemma publish_out_of_range_witness :
  let w := mkWorld (Some []) {[ "alerts" := {[ 7%nat ]} ]} [] in
  _fetch 1000 [Byte.x2a]
    (mkRequest (Some (mkUrl (Some ["alerts"]) None None)) "POST" (One "7") "b") w
  = (w, Returned invalid_priority).
Proof.
  intros w.
  apply (publish_out_of_range 1000 [Byte.x2a]
           (mkRequest (Some (mkUrl (Some ["alerts"]) None None)) "POST" (One "7") "b")
           "alerts" 7 w).
  - exists (mkUrl (Some ["alerts"]) None None), []. repeat split; auto.
  - reflexivity.
  - lia.
Defined.

(** ** Publish, then replay or sweep *)

(** X8.  After a publish that returned, the full replay of the topic is what it
    was with the new message at its end, and the full replay of every other
    topic is what it was. *)
Theorem replay_after_publish (now : Z) (bytes : list Byte.byte) (topic0 : string)
    (p : number) (content0 : string) (w w' : World) (resp : Response)
    (now' : Z) (topic1 : string) :
  _broadcast now bytes topic0 p content0 w = (w', Returned resp) ->
  _query now' topic1 None w'
  = (w', Returned (List.filter (topic_is topic1) (rows w)
                   ++ (if String.eqb topic0 topic1
                       then [mkItem (getRandomId bytes) now (now + 43200) topic0 p content0]
                       else []))).
Proof.
  intros Hrun. destruct (_broadcast_returned _ _ _ _ _ _ _ _ Hrun) as (_ & Hdb & _).
  rewrite (_query_resolve _ _ _ _ _ Hdb). simpl. rewrite queryByTopic_NoBound.
  rewrite List.filter_app. simpl. unfold topic_is at 2. simpl.
  by destruct (String.eqb topic0 topic1).
Qed.

Lemma replay_after_publish_witness :
  exists w' resp,
    _broadcast 1000 [Byte.x2a] "alerts" (Int 5) "x" (loaded None) = (w', Returned resp)
    /\ _query 2000 "alerts" None w'
       = (w', Returned [mkItem (getRandomId [Byte.x2a]) 1000 44200 "alerts" (Int 5) "x"]).
Proof.
  eexists _, _. split; [reflexivity|].
  apply (replay_after_publish 1000 [Byte.x2a] "alerts" (Int 5) "x" (loaded None)
           _ _ 2000 "alerts" eq_refl).
Defined.

(** X9.  A published message stays in the table through every sweep up to 43200
    seconds after its publish, and the first sweep after that removes it. *)
Theorem published_row_retained_12h (now : Z) (bytes : list Byte.byte) (topic0 : string)
    (p : number) (content0 : string) (w w' : World) (resp : Response) (now' : Z) :
  _broadcast now bytes topic0 p content0 w = (w', Returned resp) ->
  mkItem (getRandomId bytes) now (now + 43200) topic0 p content0
    ∈ rows (fst (_remove_expired now' w'))
  <-> (now' <= now + 43200)%Z.
Proof.
  intros Hrun. destruct (_broadcast_returned _ _ _ _ _ _ _ _ Hrun) as (_ & Hdb & _).
  unfold _remove_expired, delete_where. rewrite Hdb. cbn [fst].
  rewrite rows_set_db, filter_elem_of. cbn [expires].
  rewrite negb_true_iff, Z.ltb_ge. split; [tauto|].
  intros Hle. split; [|done]. apply list_elem_of_In, in_or_app. right. by left.
Qed.

Lemma published_row_retained_12h_witness :
  mkItem (getRandomId [Byte.x2a]) 1000 (1000 + 43200) "alerts" (Int 5) "x"
    ∈ rows (fst (_remove_expired 44200
                   (fst (_broadcast 1000 [Byte.x2a] "alerts" (Int 5) "x" (loaded None))))).
Proof.
  apply (published_row_retained_12h 1000 [Byte.x2a] "alerts" (Int 5) "x" (loaded None)
           _ _ 44200 eq_refl).
  lia.
Defined.

(** ** Invariants of the table *)

Lemma run_published (w : World) (op : Operation) :
  Forall published_row (rows w) -> Forall published_row (rows (run w op)).
Proof.
  intros Hw. destruct op as [now bytes client ts|client|now bytes request|now]; simpl.
  - unfold rows. by rewrite connection_db.
  - done.
  - destruct (_fetch_effect now bytes request w) as [_ [[-> _]|(item & _ & _ & Hit & _ & _ & ->)]];
      [done|]. apply Forall_app. split; [done|]. by constructor.
  - unfold _remove_expired, delete_where.
    destruct (db w) as [rs|] eqn:E; simpl; [|done].
    unfold rows in Hw. rewrite E in Hw. simpl in Hw. rewrite rows_set_db.
    rewrite Forall_forall in *. intros r [Hr _]%filter_elem_of. by apply Hw.
Qed.

(** X10.  Whatever the broker is asked to do, every row of its table is one a
    publish wrote: [expires] is [time + 43200], the priority is an integer
    from 1 to 5, the body is not empty and the topic is a valid one. *)
Theorem table_holds_published_rows (d : option (list Item)) (ops : list Operation) :
  Forall published_row (default [] d) ->
  Forall published_row (rows (fold_left run ops (loaded d))).
Proof.
  intros Hd. assert (Forall published_row (rows (loaded d))) as Hw by done.
  revert Hw. generalize (loaded d). clear Hd.
  induction ops as [|op ops IH]; intros w Hw; simpl; [done|].
  by apply IH, run_published.
Qed.

Lemma table_holds_published_rows_witness :
  Forall published_row
    (rows (fold_left run
             [Fetch 1000 [Byte.x2a]
                (mkRequest (Some (mkUrl (Some ["alerts"]) None None)) "POST" (One "9") "");
              Fetch 1001 [Byte.x2b]
                (mkRequest (Some (mkUrl (Some ["alerts"]) None None)) "POST" (One "2") "");
              Sweep 1002]
             (loaded None))).
Proof. apply table_holds_published_rows. constructor. Defined.

(** X11.  No two rows of the table have the same id, whatever the broker is asked
    to do, when that holds of the table it starts with. *)
Theorem table_ids_stay_unique (d : option (list Item)) (ops : list Operation) :
  NoDup (map id (default [] d)) ->
  NoDup (map id (rows (fold_left run ops (loaded d)))).
Proof.
  intros Hd. assert (NoDup (map id (rows (loaded d)))) as Hw by done.
  revert Hw. generalize (loaded d). clear Hd.
  induction ops as [|op ops IH]; intros w Hw; simpl; [done|].
  by apply IH, run_unique_ids.
Qed.

Lemma table_ids_stay_unique_witness :
  NoDup (map id
    (rows (fold_left run
             [Fetch 1000 [Byte.x2a]
                (mkRequest (Some (mkUrl (Some ["alerts"]) None None)) "POST" Undefined "a");
              Fetch 1001 [Byte.x2a]
                (mkRequest (Some (mkUrl (Some ["ops"]) None None)) "POST" Undefined "b")]
             (loaded None)))).
Proof. apply table_ids_stay_unique. constructor. Defined.

(** ** The clock and the order of the table *)





(** ** Subscribing and closing *)

Lemma add_client_members (client : WebSocket) (m : gmap string (gset WebSocket))
    (topic0 t : string) :
  members (add_client client m topic0) t
  = if decide (topic0 = t) then members m t ∪ {[client]} else members m t.
Proof.
  unfold members. rewrite add_client_lookup. by case_decide; subst.
Qed.

Lemma add_clients_members (client : WebSocket) (ts : list string)
    (m : gmap string (gset WebSocket)) (t : string) :
  members (fold_left (add_client client) ts m) t
  = if decide (t ∈ ts) then members m t ∪ {[client]} else members m t.
Proof.
  revert m. induction ts as [|t0 ts IH]; intros m.
  - cbn [fold_left]. case_decide as H; [by apply elem_of_nil in H|done].
  - cbn [fold_left]. rewrite IH, add_client_members.
    destruct (decide (t ∈ ts)) as [Hin|Hout], (decide (t ∈ t0 :: ts)) as [Hc|Hc],
      (decide (t0 = t)) as [->|Hne]; try done;
      try (exfalso; apply Hc; apply elem_of_cons; tauto).
    + by rewrite <- (assoc_L (∪)), (idemp_L (∪)).
    + exfalso. apply elem_of_cons in Hc as [->|?]; done.
Qed.

(** X13.  A connection to valid topics registers the client under each of them and
    nowhere else, moves no other client, leaves the table alone and sends one
    frame, to the client: the open event with the topics joined by commas. *)
Theorem connection_registers_client (now : Z) (bytes : list Byte.byte)
    (client : WebSocket) (ts : list string) (w : World) :
  ts <> [] -> forallb topic_regex ts = true ->
  let w' := connection now bytes client (Some ts) w in
  (forall t, members (_sockets w') t
             = if decide (t ∈ ts) then members (_sockets w) t ∪ {[client]}
               else members (_sockets w) t)
  /\ sent w' = sent w ++ [(client, Stringify
       [("id", JString (getRandomId bytes)); ("time", JNumber (Int now));
        ("event", JString "open"); ("topic", JString (String.concat "," ts))])]
  /\ db w' = db w.
Proof.
  intros Hne Hre w'. subst w'. unfold connection.
  destruct ts as [|t0 ts]; [done|]. rewrite Hre. split; [|done].
  intros t. cbn [_sockets send set_sockets]. apply add_clients_members.
Qed.

Lemma connection_registers_client_witness :
  members (_sockets (connection 1000 [Byte.x2a] 7%nat (Some ["alerts"; "ops"])
                       (mkWorld None {[ "ops" := {[ 8%nat ]} ]} []))) "ops"
  = {[ 8%nat ]} ∪ {[ 7%nat ]}.
Proof.
  destruct (connection_registers_client 1000 [Byte.x2a] 7%nat ["alerts"; "ops"]
              (mkWorld None {[ "ops" := {[ 8%nat ]} ]} [])) as [Hm _];
    [discriminate | reflexivity |].
  rewrite (Hm "ops"). reflexivity.
Defined.

(** X14.  One invalid topic turns the whole subscription away: no topic of the list
    is registered, not even the valid ones, and no open event is sent.  The
    same holds for an upgrade whose command is not [ws]. *)
Theorem invalid_topic_rejects_subscription (now : Z) (bytes : list Byte.byte)
    (client : WebSocket) (u : Url) (w : World) :
  (command u <> Some "ws"
   \/ exists ts t, topics u = Some ts /\ t ∈ ts /\ topic_regex t = false) ->
  upgrade now bytes client (Some u) w = w.
Proof.
  intros H. unfold upgrade. case_bool_decide as Hc; [|done].
  destruct H as [H|(ts & t & Hts & Ht & Hbad)]; [done|].
  unfold connection. rewrite Hts. destruct ts as [|t0 ts]; [done|].
  assert (forallb topic_regex (t0 :: ts) = false) as ->; [|done].
  apply not_true_is_false. intros Hall. rewrite forallb_forall in Hall.
  apply list_elem_of_In in Ht. specialize (Hall t Ht). congruence.
Qed.

Lemma invalid_topic_rejects_subscription_witness :
  let w := mkWorld None {[ "ops" := {[ 8%nat ]} ]} [] in
  upgrade 1000 [Byte.x2a] 7%nat (Some (mkUrl (Some ["alerts"; "bad topic"]) (Some "ws") None)) w
  = w.
Proof.
  intros w. apply invalid_topic_rejects_subscription. right.
  exists ["alerts"; "bad topic"], "bad topic". split; [reflexivity|]. split; [|reflexivity].
  apply list_elem_of_In. right. left. reflexivity.
Defined.

(** X15.  [_close] takes the one client out of every topic and moves nobody else:
    every other client is registered for a topic afterwards exactly when it
    was before. *)
Theorem close_removes_only_the_client (server other : WebSocket)
    (m : gmap string (gset WebSocket)) (t : string) :
  (server ∉ members (_close server m) t)
  /\ (other <> server -> (other ∈ members (_close server m) t <-> other ∈ members m t)).
Proof.
  unfold members. rewrite _close_lookup.
  destruct (m !! t) as [s|]; simpl; [|done].
  case_bool_decide as Hsize; simpl.
  - split; [apply not_elem_of_empty|]. intros Hne. split; [by intros ?%not_elem_of_empty|].
    intros Hin. apply size_empty_iff in Hsize. exfalso.
    apply (not_elem_of_empty (C:=gset nat) other). rewrite <- Hsize.
    apply elem_of_difference. split; [done|]. by intros ->%elem_of_singleton.
  - split.
    + intros [_ Hn]%elem_of_difference. by apply Hn, elem_of_singleton.
    + intros Hne. rewrite elem_of_difference, elem_of_singleton. tauto.
Qed.

Lemma close_removes_only_the_client_witness :
  8%nat ∈ members (_close 7%nat {[ "ops" := {[ 8%nat; 7%nat ]} ]}) "ops".
Proof.
  apply (close_removes_only_the_client 7%nat 8%nat {[ "ops" := {[ 8%nat; 7%nat ]} ]} "ops");
    [discriminate|].
  unfold members. rewrite lookup_singleton_eq. simpl.
  apply elem_of_union_l, elem_of_singleton. reflexivity.
Defined.

(** X16.  Connecting and then closing gives the registry back: when no topic has an
    empty set and the client was registered nowhere, the registry after the
    connection and the close of the client is the one before, whatever the
    topics. *)
Theorem connect_then_close_restores (now : Z) (bytes : list Byte.byte)
    (client : WebSocket) (topics0 : option (list string)) (w : World) :
  registry_ok (_sockets w) ->
  (forall t, client ∉ members (_sockets w) t) ->
  _sockets (on_close client (connection now bytes client topics0 w)) = _sockets w.
Proof.
  intros Hok Hfresh. cbn [on_close set_sockets _sockets].
  apply map_eq. intros t. rewrite _close_lookup.
  assert (forall s, _sockets w !! t = Some s -> s ∖ {[client]} = s /\ size s <> 0%nat) as Hold.
  { intros s Hs. split.
    - apply difference_disjoint_L, disjoint_singleton_r.
      specialize (Hfresh t). unfold members in Hfresh. by rewrite Hs in Hfresh.
    - intros Hz. apply size_empty_iff, leibniz_equiv in Hz. by apply (Hok t s). }
  rewrite connection_sockets.
  destruct topics0 as [ts|]; [destruct (forallb topic_regex ts)|].
  2,3: destruct (_sockets w !! t) as [s|] eqn:Hs; simpl; [|done];
       destruct (Hold s eq_refl) as [-> Hsz]; by rewrite bool_decide_eq_false_2.
  destruct (add_clients_lookup client ts (_sockets w) t) as [Hin Hout].
  pose proof (add_clients_members client ts (_sockets w) t) as Hmem.
  destruct (decide (t ∈ ts)) as [Ht|Ht].
  - destruct (Hin Ht) as (s' & Hs' & _). rewrite Hs'. simpl.
    unfold members in Hmem at 1. rewrite Hs' in Hmem. simpl in Hmem. subst s'.
    assert ((members (_sockets w) t ∪ {[client]}) ∖ {[client]} = members (_sockets w) t) as ->.
    { apply set_eq. intros c. rewrite elem_of_difference, elem_of_union, elem_of_singleton.
      split; [tauto|]. intros Hc. split; [by left|]. intros ->. by apply (Hfresh t). }
    unfold members. destruct (_sockets w !! t) as [s|] eqn:Hs; simpl.
    + destruct (Hold s eq_refl) as [_ Hsz]. by rewrite bool_decide_eq_false_2.
    + by rewrite bool_decide_eq_true_2.
  - rewrite (Hout Ht). destruct (_sockets w !! t) as [s|] eqn:Hs; simpl; [|done].
    destruct (Hold s eq_refl) as [-> Hsz]. by rewrite bool_decide_eq_false_2.
Qed.

Lemma connect_then_close_restores_witness :
  let w := mkWorld None {[ "ops" := {[ 8%nat ]} ]} [] in
  _sockets (on_close 7%nat (connection 1000 [Byte.x2a] 7%nat (Some ["alerts"; "ops"]) w))
  = _sockets w.
Proof.
  intros w. apply connect_then_close_restores.
  - intros t s. unfold w. cbn [_sockets]. intros Hs.
    apply lookup_singleton_Some in Hs as [_ <-]. intros He.
    apply (not_elem_of_empty (C:=gset nat) 8%nat). rewrite <- He. by apply elem_of_singleton.
  - intros t. unfold w, members. cbn [_sockets].
    destruct (decide ("ops" = t)) as [<-|Hne].
    + rewrite lookup_singleton_eq. simpl. by intros ?%elem_of_singleton.
    + rewrite lookup_singleton_ne by done. apply not_elem_of_empty.
Defined.

(** X17.  After its close a client gets no frame of any later publish, whatever
    topics it had subscribed to. *)
Theorem closed_client_gets_nothing (now : Z) (bytes : list Byte.byte) (topic0 : string)
    (p : number) (content0 : string) (client : WebSocket) (w w' : World)
    (out : outcome Response) (pl : Payload) :
  _broadcast now bytes topic0 p content0 (on_close client w) = (w', out) ->
  (client, pl) ∉ sent_since (on_close client w) w'.
Proof.
  rewrite _broadcast_steps. intros Hrun Hin.
  destruct (_save _ (on_close client w)) as [w1 [[]|e]] eqn:Hsave;
    destruct (_save_frame _ _ _ _ Hsave) as (Hso & Hse & _); injection Hrun as <- _.
  - destruct (send_all_frame
                (StringifyLn (message_event (getRandomId bytes) now topic0 content0 p))
                (subscribers topic0 w1) w1) as (_ & _ & Hsent).
    rewrite Hse in Hsent. rewrite (sent_since_app _ _ _ Hsent) in Hin.
    apply list_elem_of_fmap in Hin as (c & [= -> _] & Hc).
    unfold subscribers in Hc. rewrite Hso in Hc. cbn [on_close set_sockets _sockets] in Hc.
    destruct (_close c (_sockets w) !! topic0) as [s|] eqn:Hs; [|by apply elem_of_nil in Hc].
    apply elem_of_elements in Hc. by destruct (_close_left _ _ _ _ Hs) as [_ Hn].
  - unfold sent_since in Hin. rewrite Hse, drop_all in Hin. by apply elem_of_nil in Hin.
Qed.

Lemma closed_client_gets_nothing_witness :
  let w := mkWorld None {[ "ops" := {[ 8%nat; 7%nat ]} ]} [] in
  (7%nat, StringifyLn (message_event (getRandomId [Byte.x2a]) 1000 "ops" "x" (Int 5)))
    ∉ sent_since (on_close 7%nat w)
        (fst (_broadcast 1000 [Byte.x2a] "ops" (Int 5) "x" (on_close 7%nat w))).
Proof.
  intros w.
  apply (closed_client_gets_nothing 1000 [Byte.x2a] "ops" (Int 5) "x" 7%nat w _ _ _ eq_refl).
Defined.

(** ** The request listener *)

(** The checks of the [request] listener are those [_fetch] makes again: the
    listener answers every request as [_fetch] does. *)
Lemma request_listener_is_fetch (now : Z) (bytes : list Byte.byte) (request : Request)
    (w : World) :
  on_request now bytes request w = _fetch now bytes request w.
Proof.
  unfold on_request, _fetch. destruct (url request) as [u|]; [|done].
  destruct (topics u) as [[|t ts]|]; [done| |done].
  by destruct (negb (forallb topic_regex (t :: ts))).
Qed.

(** ** More on the replay *)

Lemma filter_and_sublist {A} (f g : A -> bool) (l : list A) :
  sublist (List.filter (fun a => f a && g a) l) (List.filter f l).
Proof.
  induction l as [|a l IH]; simpl; [constructor|].
  destruct (f a), (g a); simpl; first [done | by constructor].
Qed.

Lemma filter_swap {A} (f g : A -> bool) (l : list A) :
  List.filter f (List.filter g l) = List.filter g (List.filter f l).
Proof.
  induction l as [|a l IH]; simpl; [done|].
  destruct (f a) eqn:Ef, (g a) eqn:Eg; simpl; rewrite ?Ef, ?Eg, IH; done.
Qed.

(** X18.  A selector only narrows the replay: with the table in place, what
    [_query] returns for any selector is a sub-list of what it returns for
    the topic without one, so it never holds a row of another topic. *)
Theorem selector_only_narrows (now : Z) (topic0 : string) (since0 : option string)
    (w : World) (rs : list Item) :
  db w = Some rs ->
  exists res full,
    _query now topic0 since0 w = (w, Returned res)
    /\ _query now topic0 None w = (w, Returned full)
    /\ sublist res full
    /\ (forall r, r ∈ full <-> r ∈ rs /\ topic r = topic0).
Proof.
  intros Hdb. eexists _, _. rewrite !(_query_resolve _ _ _ _ _ Hdb).
  split; [done|]. split; [done|]. split.
  - cbn [resolve]. rewrite queryByTopic_NoBound. apply filter_and_sublist.
  - intros r. cbn [resolve]. rewrite queryByTopic_NoBound, filter_elem_of.
    unfold topic_is. by rewrite String.eqb_eq.
Qed.

Lemma selector_only_narrows_witness :
  let rs := [mkItem "Zk3q0Lm9TtA1" 100 43300 "alerts" (Int 3) "a";
             mkItem "uP4ID5x0fkQh" 200 43400 "ops" (Int 4) "b"] in
  exists res full,
    _query 1000 "alerts" (Some "1h") (loaded (Some rs)) = (loaded (Some rs), Returned res)
    /\ _query 1000 "alerts" None (loaded (Some rs)) = (loaded (Some rs), Returned full)
    /\ sublist res full.
Proof.
  intros rs.
  destruct (selector_only_narrows 1000 "alerts" (Some "1h") (loaded (Some rs)) rs eq_refl)
    as (res & full & H1 & H2 & H3 & _).
  by exists res, full.
Defined.

Lemma find_unique_id (rs : list Item) (m : Item) :
  NoDup (map id rs) -> m ∈ rs ->
  List.find (fun r => String.eqb (id r) (id m)) rs = Some m.
Proof.
  induction rs as [|r rs IH]; intros Hnd Hin; [by apply elem_of_nil in Hin|].
  simpl in *. apply NoDup_cons in Hnd as [Hr Hnd].
  destruct (String.eqb_spec (id r) (id m)) as [Heq|Hne].
  - apply elem_of_cons in Hin as [->|Hin]; [done|].
    exfalso. apply Hr. rewrite Heq. apply list_elem_of_fmap. by exists m.
  - apply elem_of_cons in Hin as [->|Hin]; [done|]. by apply IH.
Qed.

(** X19.  Replay from a message: with unique ids, the selector that is the
    12-character id of a stored message [m] gives the rows of the topic with
    [time >= time m], in storage order: [m] itself when it is of the topic,
    every later message, none that is strictly earlier.  The topic of [m]
    plays no part. *)
Theorem replay_since_message (now : Z) (topic0 : string) (m : Item)
    (w : World) (rs : list Item) :
  db w = Some rs -> NoDup (map id rs) -> m ∈ rs -> String.length (id m) = 12%nat ->
  exists res,
    _query now topic0 (Some (id m)) w = (w, Returned res)
    /\ res = List.filter (fun r => topic_is topic0 r && (time m <=? time r)%Z) rs
    /\ (forall r, r ∈ res <-> r ∈ rs /\ topic r = topic0 /\ (time m <= time r)%Z)
    /\ (topic m = topic0 -> m ∈ res).
Proof.
  intros Hdb Hnd Hm Hlen. eexists. split.
  { rewrite (_query_resolve _ _ _ _ _ Hdb), (resolve_length_12 _ _ _ Hlen).
    rewrite queryByTopic_id. unfold rule3. by rewrite (find_unique_id rs m Hnd Hm). }
  unfold rule2. split; [done|].
  assert (forall r, r ∈ List.filter (fun r => topic_is topic0 r && (time m <=? time r)%Z) rs
                    <-> r ∈ rs /\ topic r = topic0 /\ (time m <= time r)%Z) as Hiff.
  { intros r. rewrite filter_elem_of, andb_true_iff, Z.leb_le. unfold topic_is.
    by rewrite String.eqb_eq. }
  split; [done|]. intros Ht. apply Hiff. repeat split; [done|done|lia].
Qed.

Lemma replay_since_message_witness :
  let m := mkItem "uP4ID5x0fkQh" 200 43400 "ops" (Int 4) "b" in
  let rs := [mkItem "Zk3q0Lm9TtA1" 100 43300 "alerts" (Int 3) "a"; m;
             mkItem "HYp6NevCTk1I" 300 43500 "alerts" (Int 3) "c"] in
  _query 1000 "alerts" (Some "uP4ID5x0fkQh") (loaded (Some rs))
  = (loaded (Some rs), Returned [mkItem "HYp6NevCTk1I" 300 43500 "alerts" (Int 3) "c"]).
Proof.
  intros m rs.
  destruct (replay_since_message 1000 "alerts" m (loaded (Some rs)) rs eq_refl)
    as (res & Hrun & -> & _).
  - unfold rs, m. simpl. repeat (apply NoDup_cons; split; [|]); try apply NoDup_nil_2;
      rewrite ?elem_of_cons, ?elem_of_nil; intros H; repeat destruct H as [H|H]; done.
  - unfold rs. apply elem_of_cons. right. by left.
  - reflexivity.
  - exact Hrun.
Defined.

Lemma resolve_rows_irrelevant (now : Z) (rs1 rs2 : list Item) (since0 : option string) :
  (forall s, since0 = Some s -> String.length s <> 12%nat) ->
  resolve now rs1 since0 = resolve now rs2 since0.
Proof.
  intros Hlen. destruct since0 as [s|]; [|done]. unfold resolve.
  specialize (Hlen s eq_refl). apply Nat.eqb_neq in Hlen. by rewrite Hlen.
Qed.

(** X20.  The sweep and the replay commute unless the selector is an id: for every
    other selector the replay after a sweep at [now'] is the replay before it
    without the rows with [expires < now']. *)
Theorem sweep_then_replay (now now' : Z) (topic0 : string) (since0 : option string)
    (w : World) (rs res : list Item) :
  db w = Some rs ->
  (forall s, since0 = Some s -> String.length s <> 12%nat) ->
  _query now topic0 since0 w = (w, Returned res) ->
  snd (_query now topic0 since0 (fst (_remove_expired now' w)))
  = Returned (List.filter (fun r => (now' <=? expires r)%Z) res).
Proof.
  intros Hdb Hlen. rewrite (_query_resolve _ _ _ _ _ Hdb). intros [= <-].
  unfold _remove_expired, delete_where. rewrite Hdb. cbn [fst].
  rewrite (_query_resolve _ _ _ _ (List.filter (fun r => negb (expires r <? now')%Z) rs));
    [|done]. cbn [snd]. f_equal.
  rewrite (resolve_rows_irrelevant now _ rs since0 Hlen), filter_negb_lt.
  unfold queryByTopic. apply filter_swap.
Qed.

Lemma sweep_then_replay_witness :
  let rs := [mkItem "Zk3q0Lm9TtA1" 100 43300 "alerts" (Int 3) "a";
             mkItem "uP4ID5x0fkQh" 200 43400 "alerts" (Int 4) "b"] in
  snd (_query 43350 "alerts" (Some "all") (fst (_remove_expired 43350 (loaded (Some rs)))))
  = Returned [mkItem "uP4ID5x0fkQh" 200 43400 "alerts" (Int 4) "b"].
Proof.
  intros rs.
  rewrite (sweep_then_replay 43350 43350 "alerts" (Some "all") (loaded (Some rs)) rs rs eq_refl).
  - reflexivity.
  - by intros s [= <-].
  - reflexivity.
Defined.

(** X21.  Replay from a message that the sweep has removed: once every row with the
    id is expired and swept, the selector resolves to nothing and the replay
    is empty, whatever later messages the topic holds. *)
Theorem replay_since_swept_message (now now' : Z) (topic0 s : string)
    (w : World) (rs : list Item) :
  db w = Some rs -> String.length s = 12%nat ->
  (forall r, r ∈ rs -> id r = s -> (expires r < now')%Z) ->
  snd (_query now topic0 (Some s) (fst (_remove_expired now' w))) = Returned [].
Proof.
  intros Hdb Hlen Hexp. unfold _remove_expired, delete_where. rewrite Hdb. cbn [fst].
  rewrite (_query_resolve _ _ _ _ (List.filter (fun r => negb (expires r <? now')%Z) rs));
    [|done]. cbn [snd]. f_equal.
  rewrite (resolve_length_12 _ _ _ Hlen), queryByTopic_id. apply rule3_unknown_id.
  intros r [Hr Hkeep]%filter_elem_of Hid. specialize (Hexp r Hr Hid).
  apply negb_true_iff, Z.ltb_ge in Hkeep. lia.
Qed.

Lemma replay_since_swept_message_witness :
  let rs := [mkItem "Zk3q0Lm9TtA1" 100 43300 "alerts" (Int 3) "a";
             mkItem "uP4ID5x0fkQh" 200 43400 "alerts" (Int 4) "b"] in
  snd (_query 43350 "alerts" (Some "Zk3q0Lm9TtA1") (fst (_remove_expired 43350 (loaded (Some rs)))))
  = Returned [].
Proof.
  intros rs.
  apply (replay_since_swept_message 43350 43350 "alerts" "Zk3q0Lm9TtA1" (loaded (Some rs)) rs);
    [reflexivity | reflexivity |].
  intros r Hr Hid. unfold rs in Hr.
  apply elem_of_cons in Hr as [->|Hr]; [simpl; lia|].
  apply elem_of_cons in Hr as [->|Hr]; [discriminate Hid|]. by apply elem_of_nil in Hr.
Defined.

Lemma letter_plain (c : ascii) :
  (65 <=? code c)%Z = true ->
  sqlite_space c = false /\ is_digit c = false /\ Ascii.eqb c "." = false
  /\ forall l, split_sign (c :: l) = (false, c :: l).
Proof.
  destruct c as [b0 b1 b2 b3 b4 b5 b6 b7].
  destruct b0, b1, b2, b3, b4, b5, b6, b7;
    intros H; vm_compute in H; try discriminate H; repeat split.
Qed.

(** X22.  A selector of ten characters that starts with a letter is bound as text
    and compared with integer times: no row is [>=] it, the replay is empty
    and nothing is thrown. *)
Theorem replay_since_word_is_empty (now : Z) (topic0 : string) (c : ascii) (rest : string)
    (w : World) (rs : list Item) :
  db w = Some rs ->
  String.length (String c rest) = 10%nat ->
  (65 <=? code c)%Z = true ->
  _query now topic0 (Some (String c rest)) w = (w, Returned []).
Proof.
  intros Hdb Hlen Hc.
  rewrite (_query_resolve _ _ _ _ _ Hdb), (resolve_length_10 _ _ _ Hlen).
  f_equal. f_equal. apply filter_none. intros r.
  destruct (letter_plain c Hc) as (Hsp & Hdig & Hdot & Hsign).
  unfold matches, bind_string, time_ge, numeric_affinity.
  cbn [list_ascii_of_string skip]. rewrite Hsp, Hsign. cbn [span_digits]. rewrite Hdig.
  assert (match c :: list_ascii_of_string rest with
          | "."%char :: l' => span_digits l'
          | _ => ([], c :: list_ascii_of_string rest)
          end = ([], c :: list_ascii_of_string rest)) as ->.
  { destruct c as [[] [] [] [] [] [] [] []]; done. }
  simpl. apply andb_false_r.
Qed.

Lemma replay_since_word_is_empty_witness :
  let rs := [mkItem "Zk3q0Lm9TtA1" 100 43300 "alerts" (Int 3) "a"] in
  _query 1000 "alerts" (Some "yesterday!") (loaded (Some rs)) = (loaded (Some rs), Returned []).
Proof.
  intros rs.
  apply (replay_since_word_is_empty 1000 "alerts" "y" "esterday!" (loaded (Some rs)) rs);
    reflexivity.
Defined.



Lemma serving_query_returns_witness :
  exists res,
    _query 2000 "alerts" (Some "1d")
      (fold_left run
         [Fetch 1000 [Byte.x2a]
            (mkRequest (Some (mkUrl (Some ["alerts"]) None None)) "POST" Undefined "a")]
         (loaded (Some [])))
    = (fold_left run
         [Fetch 1000 [Byte.x2a]
            (mkRequest (Some (mkUrl (Some ["alerts"]) None None)) "POST" Undefined "a")]
         (loaded (Some [])),
       Returned res).
Proof.
  apply (serving_query_returns (Some []) 900 (loaded (Some []))
           [Fetch 1000 [Byte.x2a]
              (mkRequest (Some (mkUrl (Some ["alerts"]) None None)) "POST" Undefined "a")]
           2000 "alerts" (Some "1d")).
  reflexivity.
Defined.

(** Without the table, only [_save] works: the sweep throws "no such table"
    and so does the replay, unless its selector is recognised by no rule (the
    database is then not asked); [_save] creates the table and stores the
    record as its first row. *)
Lemma table_is_made_by_save (now : Z) (topic0 : string) (since0 : option string)
    (it : Item) (w : World) :
  db w = None ->
  _remove_expired now w = (w, Thrown no_such_table)
  /\ (_query now topic0 since0 w = (w, Thrown no_such_table)
      \/ (exists s, since0 = Some s /\ unrecognized s)
         /\ _query now topic0 since0 w = (w, Returned []))
  /\ (fully_populated it -> _save it w = (set_db (Some [it]) w, Returned tt)).
Proof.
  intros Hdb. split; [|split].
  - unfold _remove_expired, delete_where. by rewrite Hdb.
  - unfold _query, select_where. destruct since0 as [s|]; simpl; [|left; by rewrite Hdb].
    destruct (String.eqb_spec s "") as [->|H0]; [left; by rewrite Hdb|].
    destruct (String.eqb_spec s "all") as [->|H1]; [left; by rewrite Hdb|].
    destruct (Nat.eqb_spec (String.length s) 10) as [|H10]; [left; by rewrite Hdb|].
    destruct (Nat.eqb_spec (String.length s) 12) as [|H12]; [left; by rewrite Hdb|].
    destruct (duration_regex s) as [[num unit]|] eqn:Hre; [left; by rewrite Hdb|].
    right. split; [|done]. by exists s.
  - intros Hfp. rewrite _save_fresh; [|done|].
    + unfold rows. by rewrite Hdb.
    + unfold id_present, rows. by rewrite Hdb.
Qed.

(** ** Message ids *)

Lemma append_assoc (a b c : string) : ((a ++ b) ++ c)%string = (a ++ (b ++ c))%string.
Proof.
  induction a as [|x a IH]; [done|].
  change (String x ((a ++ b) ++ c) = String x (a ++ (b ++ c)))%string. by rewrite IH.
Qed.

Lemma append_empty (a : string) : (a ++ "")%string = a.
Proof.
  induction a as [|x a IH]; [done|].
  change (String x (a ++ "") = String x a)%string. by rewrite IH.
Qed.

Lemma getRandomId_fold (bytes : list Byte.byte) (acc : string) :
  fold_left (fun result byte => (result ++ String (alphabet_at byte) "")%string) bytes acc
  = (acc ++ string_of_list_ascii (map alphabet_at bytes))%string.
Proof.
  revert acc. induction bytes as [|b bytes IH]; intros acc.
  - cbn [fold_left map string_of_list_ascii]. by rewrite append_empty.
  - cbn [fold_left map string_of_list_ascii]. by rewrite IH, append_assoc.
Qed.

Lemma alphabet_at_alphanumeric (b : Byte.byte) : alphanumeric (alphabet_at b) = true.
Proof. destruct b; reflexivity. Qed.

(** X25.  An id is one symbol per random byte, the symbol of the byte modulo 62:
    as long as the bytes drawn (12 in the source), and made of letters and
    digits only. *)
Theorem getRandomId_symbols (bytes : list Byte.byte) :
  getRandomId bytes = string_of_list_ascii (map alphabet_at bytes)
  /\ String.length (getRandomId bytes) = List.length bytes
  /\ forallb alphanumeric (list_ascii_of_string (getRandomId bytes)) = true.
Proof.
  assert (getRandomId bytes = string_of_list_ascii (map alphabet_at bytes)) as Heq.
  { unfold getRandomId. rewrite getRandomId_fold.
    change ("" ++ string_of_list_ascii (map alphabet_at bytes))%string
      with (string_of_list_ascii (map alphabet_at bytes)).
    assert (List.length bytes
            = String.length (string_of_list_ascii (map alphabet_at bytes))) as ->.
    { induction bytes as [|b bytes IH]; simpl; [done|]. by rewrite <- IH. }
    apply slice0_all. }
  split; [done|]. split; [apply getRandomId_length|].
  rewrite Heq, list_ascii_of_string_of_list_ascii. apply forallb_forall.
  intros c (b & <- & _)%in_map_iff. apply alphabet_at_alphanumeric.
Qed.

Lemma all_bytes_complete (b : Byte.byte) : In b all_bytes.
Proof.
  apply (nth_error_In _ (N.to_nat (Byte.to_N b))). destruct b; reflexivity.
Qed.

(** X26.  The draw is not uniform.  Of the 256 values of a byte, five give each of
    the symbols 0 to 7 and four give each other letter or digit, since 256
    is 4 * 62 + 8; no byte gives anything else. *)
Theorem alphabet_draw_counts (c : ascii) :
  List.length (List.filter (fun b => Ascii.eqb (alphabet_at b) c) all_bytes)
  = (if is_digit c && (code c <=? 55)%Z then 5%nat
     else if alphanumeric c then 4%nat else 0%nat)
  /\ List.length all_bytes = 256%nat
  /\ (forall b, In b all_bytes).
Proof.
  split; [|split; [reflexivity|apply all_bytes_complete]].
  destruct c as [b0 b1 b2 b3 b4 b5 b6 b7].
  destruct b0, b1, b2, b3, b4, b5, b6, b7; vm_compute; reflexivity.
Qed.

(** ** The priority header *)

Lemma parseInt_prefix (ds rest : list ascii) :
  ds <> [] -> forallb is_digit ds = true ->
  match rest with c :: _ => is_digit c = false | [] => True end ->
  parseInt (string_of_list_ascii (ds ++ rest)) = Int (decimal ds).
Proof.
  intros Hne Hds Hrest. unfold parseInt.
  rewrite list_ascii_of_string_of_list_ascii.
  destruct ds as [|c ds]; [done|].
  pose proof Hds as Hc. simpl in Hc. apply andb_true_iff in Hc as [Hc _].
  destruct (digit_plain c Hc) as (_ & Hsp & _ & Hsign).
  rewrite <- app_comm_cons. cbn [skip]. rewrite Hsp, Hsign, app_comm_cons.
  rewrite (span_digits_app _ _ Hds Hrest). done.
Qed.

(** X27.  The priority is read off the start of the header: digits followed by
    anything that does not start with a digit ("4 stars", "2.9", "5x") are
    the priority of the digits alone, and the request is treated exactly as
    if the header were those digits. *)
Theorem priority_header_read_as_prefix (now : Z) (bytes : list Byte.byte)
    (request : Request) (topic0 : string) (ds rest : list ascii) (w : World) :
  publishes request topic0 ->
  x_priority request = One (string_of_list_ascii (ds ++ rest)) ->
  ds <> [] -> forallb is_digit ds = true ->
  match rest with c :: _ => is_digit c = false | [] => True end ->
  parseInt (string_of_list_ascii (ds ++ rest)) = Int (decimal ds)
  /\ _fetch now bytes request w
     = _fetch now bytes
         (mkRequest (url request) (method request) (One (string_of_list_ascii ds))
            (content request)) w.
Proof.
  intros Hpub Hx Hne Hds Hrest. split; [by apply parseInt_prefix|].
  assert (publishes (mkRequest (url request) (method request)
                       (One (string_of_list_ascii ds)) (content request)) topic0) as Hpub'.
  { destruct Hpub as (u & ts & H). by exists u, ts. }
  rewrite (_fetch_publish _ _ _ _ Hpub), (_fetch_publish _ _ _ _ Hpub'), Hx.
  cbn [x_priority content first_value].
  assert (forall l, l <> [] -> js_or (Some (string_of_list_ascii l)) "3" = string_of_list_ascii l)
    as Hor.
  { intros [|c l] Hl; [done|]. done. }
  rewrite !Hor; [|done|by destruct ds].
  by rewrite (parseInt_prefix ds rest Hne Hds Hrest), (parseInt_digits ds Hne Hds).
Qed.

Lemma priority_header_read_as_prefix_witness :
  parseInt "4 stars" = Int 4.
Proof.
  apply (priority_header_read_as_prefix 1000 [Byte.x2a]
           (mkRequest (Some (mkUrl (Some ["alerts"]) None None)) "POST" (One "4 stars") "b")
           "alerts" ["4"%char] (list_ascii_of_string " stars") (loaded None)).
  - exists (mkUrl (Some ["alerts"]) None None), []. repeat split; auto.
  - reflexivity.
  - discriminate.
  - reflexivity.
  - reflexivity.
Defined.

(** ** The start of the module *)


(** ** The texts on the wire *)

Lemma chars_append (a b : string) :
  list_ascii_of_string (a ++ b)%string = list_ascii_of_string a ++ list_ascii_of_string b.
Proof.
  induction a as [|c a IH]; [done|].
  change (c :: list_ascii_of_string (a ++ b)%string
          = c :: (list_ascii_of_string a ++ list_ascii_of_string b)). by rewrite IH.
Qed.

Lemma printable_append (a b : string) :
  printable (a ++ b)%string = printable a && printable b.
Proof. unfold printable. by rewrite chars_append, forallb_app. Qed.

Lemma printable_concat (sep : string) (l : list string) :
  printable sep = true -> Forall (fun s => printable s = true) l ->
  printable (String.concat sep l) = true.
Proof.
  intros Hsep Hl. induction Hl as [|s l Hs Hl IH]; [done|].
  destruct l as [|s' l]; [done|].
  change (printable (s ++ sep ++ String.concat sep (s' :: l))%string = true).
  by rewrite !printable_append, Hs, Hsep, IH.
Qed.

Lemma escape_printable (c : ascii) : printable (escape c) = true.
Proof.
  destruct c as [b0 b1 b2 b3 b4 b5 b6 b7].
  destruct b0, b1, b2, b3, b4, b5, b6, b7; reflexivity.
Qed.

Lemma stringify_string_printable (s : string) : printable (stringify_string s) = true.
Proof.
  unfold stringify_string.
  change (printable (String quote "" ++ (String.concat "" (map escape (list_ascii_of_string s))
                                         ++ String quote ""))%string = true).
  rewrite !printable_append, printable_concat; [done|done|].
  apply Forall_forall. intros e (c & -> & _)%list_elem_of_fmap. apply escape_printable.
Qed.

Lemma string_of_uint_printable (d : Decimal.uint) :
  printable (NilEmpty.string_of_uint d) = true.
Proof. unfold printable. induction d; simpl; done. Qed.

Lemma stringify_number_printable (n : number) : printable (stringify_number n) = true.
Proof.
  destruct n as [z|]; [|done]. unfold stringify_number, NilZero.string_of_int.
  destruct (Z.to_int z) as [d|d]; unfold NilZero.string_of_uint.
  - destruct d; try done; apply (string_of_uint_printable (_ d)).
  - change (printable ("-" ++ match d with Decimal.Nil => "0" | _ => NilEmpty.string_of_uint d end)%string = true).
    rewrite printable_append. destruct d; try done; apply (string_of_uint_printable (_ d)).
Qed.

Lemma stringify_printable (o : JsonObject) : printable (stringify o) = true.
Proof.
  unfold stringify. rewrite !printable_append, printable_concat; [done|done|].
  apply Forall_forall. intros e ([k v] & -> & _)%list_elem_of_fmap. simpl.
  rewrite !printable_append, stringify_string_printable. simpl.
  destruct v as [n|s|[]]; simpl; [apply stringify_number_printable
                                  |apply stringify_string_printable|done|done].
Qed.

Lemma line_feeds_append (a b : string) :
  line_feeds (a ++ b)%string = (line_feeds a + line_feeds b)%nat.
Proof. unfold line_feeds. by rewrite chars_append, List.filter_app, length_app. Qed.

Lemma printable_no_line_feed (s : string) : printable s = true -> line_feeds s = 0%nat.
Proof.
  unfold printable, line_feeds. induction (list_ascii_of_string s) as [|c l IH]; [done|].
  cbn [forallb List.filter]. intros [Hc Hl]%andb_true_iff.
  destruct (Ascii.eqb_spec line_feed c) as [<-|_]; [done|by apply IH].
Qed.

(** X29.  The JSON text of a record has no control character, whatever strings the
    record holds: those of a topic or a body are written as escapes.  So the
    text is on one line. *)
Theorem stringify_is_one_line (o : JsonObject) :
  printable (stringify o) = true /\ line_feeds (stringify o) = 0%nat.
Proof.
  split; [apply stringify_printable|]. apply printable_no_line_feed, stringify_printable.
Qed.

Lemma concat_line_feeds (l : list string) :
  Forall (fun s => line_feeds s = 0%nat) l ->
  line_feeds (String.concat (String line_feed "") l) = Nat.pred (List.length l).
Proof.
  intros Hl. induction Hl as [|s l Hs Hl IH]; [done|].
  destruct l as [|s' l]; [exact Hs|].
  change (line_feeds (s ++ String line_feed "" ++ String.concat (String line_feed "") (s' :: l))%string
          = S (List.length l)).
  rewrite !line_feeds_append, Hs, IH. done.
Qed.

(** X30.  The replay answer has one line per row: as many line feeds as rows, each
    closing the text of one row, whatever the bodies; with no row the answer
    is a single line feed.  A frame or an acknowledgment ends in its only
    line feed. *)
Theorem replay_text_line_per_row (items : list Item) (o : JsonObject) :
  line_feeds (ndjson_text (map query_line items)) = Nat.max 1 (List.length items)
  /\ ndjson_text [] = String line_feed ""
  /\ line_feeds (payload_text (StringifyLn o)) = 1%nat
  /\ line_feeds (payload_text (Stringify o)) = 0%nat.
Proof.
  split; [|split; [done|split]].
  - unfold ndjson_text. rewrite line_feeds_append, concat_line_feeds.
    + change (line_feeds (String line_feed "")) with 1%nat.
      rewrite !length_map. destruct items as [|r items]; [done|]. cbn [List.length]. lia.
    + apply Forall_forall. intros s (l & -> & _)%list_elem_of_fmap.
      apply printable_no_line_feed, stringify_printable.
  - cbn [payload_text]. rewrite line_feeds_append.
    change (line_feeds (String line_feed "")) with 1%nat.
    by rewrite (printable_no_line_feed _ (stringify_printable o)).
  - apply printable_no_line_feed, stringify_printable.
Qed.
